(** * Verification of the nitric CLI: code-as-config server, build passes
    and table output.

    Shallow embedding of
    - [pkg/codeconfig] server ([Server.TriggerStream], [Server.Declare],
      [Server.Details]);
    - [pkg/build/build.go] ([Create], [CreateBaseDev]);
    - [pkg/output/format.go] ([printMap]);
    together with the parts of [FunctionDependencies] and of the
    dependency-graph merge that these operations rely on. *)

From stdpp Require Import base list gmap sets strings pretty.
From Stdlib Require Import String Ascii.
From Stdlib Require OrderedTypeEx.
From Stdlib Require Import Sorting.Sorted.

Open Scope string_scope.
Set Warnings "-register-all -abstract-large-number".

(* ===================================================================== *)
(** * Protobuf messages (nitric v1) *)
(* ===================================================================== *)

Module Pb.

Record ApiWorker := { ApiWorker_api : string; ApiWorker_path : string;
                      ApiWorker_methods : list string }.
Record ScheduleWorker := { ScheduleWorker_key : string;
                           ScheduleWorker_rate : string }.
Record SubscriptionWorker := { SubscriptionWorker_topic : string }.

(** The [oneof worker] of an [InitRequest]; [InitRequest_NoWorker] stands
    for a nil worker or any other worker variant. *)
Inductive InitRequest_Worker :=
| InitRequest_Api (w : ApiWorker)
| InitRequest_Schedule (w : ScheduleWorker)
| InitRequest_Subscription (w : SubscriptionWorker)
| InitRequest_NoWorker.

Record InitRequest := { Worker : InitRequest_Worker }.

(** [ClientMessage.content]: an init request or a trigger response. *)
Inductive ClientMessage :=
| ClientMessage_InitRequest (ir : InitRequest)
| ClientMessage_TriggerResponse (id : string).

Definition GetInitRequest (cm : ClientMessage) : option InitRequest :=
  match cm with
  | ClientMessage_InitRequest ir => Some ir
  | _ => None
  end.

(** Messages the server may send on the stream. *)
Inductive ServerMessage :=
| ServerMessage_InitResponse
| ServerMessage_TriggerRequest (id : string).

(** [ResourceType] is a Go [int32] enum: the named values and any other
    number. *)
Inductive ResourceType :=
| ResourceType_Function
| ResourceType_Topic
| ResourceType_Queue
| ResourceType_Bucket
| ResourceType_Collection
| ResourceType_Policy
| ResourceType_Secret
| ResourceType_Api
| ResourceType_Other (n : Z).

(** The [String] method of the enum: its name, or the number itself. *)
Definition ResourceType_String (t : ResourceType) : string :=
  match t with
  | ResourceType_Function => "Function"
  | ResourceType_Topic => "Topic"
  | ResourceType_Queue => "Queue"
  | ResourceType_Bucket => "Bucket"
  | ResourceType_Collection => "Collection"
  | ResourceType_Policy => "Policy"
  | ResourceType_Secret => "Secret"
  | ResourceType_Api => "Api"
  | ResourceType_Other n => pretty n
  end.

Record Resource := { Resource_Type : ResourceType; Resource_Name : string }.

Record BucketResource := { Bucket_dummy : unit }.
Record CollectionResource := { Collection_dummy : unit }.
Record QueueResource := { Queue_dummy : unit }.
Record TopicResource := { Topic_dummy : unit }.
Record SecretResource := { Secret_dummy : unit }.
Record PolicyResource := { Policy_principals : list Resource;
                           Policy_actions : list string;
                           Policy_resources : list Resource }.
Record ApiResource := { Api_SecurityDefinitions : list (string * string);
                        Api_Security : list (string * list string) }.

(** The [oneof config] of a [ResourceDeclareRequest]. *)
Inductive ResourceDeclareRequest_Config :=
| Config_Bucket (b : BucketResource)
| Config_Collection (c : CollectionResource)
| Config_Queue (q : QueueResource)
| Config_Topic (t : TopicResource)
| Config_Policy (p : PolicyResource)
| Config_Secret (s : SecretResource)
| Config_Api (a : ApiResource)
| Config_None.

Record ResourceDeclareRequest := { Declare_Resource : Resource;
                                   Declare_Config : ResourceDeclareRequest_Config }.

(** Getters return the Go zero value (nil) when the oneof holds another case. *)
Definition GetBucket r := match Declare_Config r with Config_Bucket b => Some b | _ => None end.
Definition GetCollection r := match Declare_Config r with Config_Collection c => Some c | _ => None end.
Definition GetQueue r := match Declare_Config r with Config_Queue q => Some q | _ => None end.
Definition GetTopic r := match Declare_Config r with Config_Topic t => Some t | _ => None end.
Definition GetPolicy r := match Declare_Config r with Config_Policy p => Some p | _ => None end.
Definition GetSecret r := match Declare_Config r with Config_Secret s => Some s | _ => None end.
(** [GetApi().SecurityDefinitions] and [GetApi().Security] for a request
    whose config is an Api config. Go reads the fields through the pointer
    [GetApi()] returns, so another config (a nil pointer there) panics; the
    model's empty list in that case is not Go's behaviour, and no theorem
    here relies on it. *)
Definition GetApi_SecurityDefinitions r :=
  match Declare_Config r with Config_Api a => Api_SecurityDefinitions a | _ => [] end.
Definition GetApi_Security r :=
  match Declare_Config r with Config_Api a => Api_Security a | _ => [] end.

Record ResourceDeclareResponse := { DeclareResponse_dummy : unit }.

Record ResourceDetailsRequest := { Details_Resource : Resource }.

Record ResourceDetailsResponse := {
  Details_Provider : string;
  Details_Service : string;
  Details_Id : string;
  Details_ApiUrl : string }.

End Pb.
Import Pb.

(* ===================================================================== *)
(** * Errors *)
(* ===================================================================== *)

(** gRPC status codes used by the server. *)
Inductive Code := Internal | FailedPrecondition.

(** A Go [error]: a gRPC status or a plain [fmt.Errorf] error. *)
Inductive error :=
| StatusError (c : Code) (msg : string)
| PlainError (msg : string).

(* ===================================================================== *)
(** * FunctionDependencies *)
(* ===================================================================== *)

(** Modelled from the spec: [FunctionDependencies] and its accumulator
    methods (package codeconfig, not among the sources).  The accumulator
    holds the trigger bindings (API, schedule and subscription workers) and
    the declared resources keyed by (kind, name); re-declaring a resource is
    a no-op merge; the handler methods record the binding and succeed. *)
Record FunctionDependencies := {
  apis : list ApiWorker;
  schedules : list ScheduleWorker;
  subscriptions : list SubscriptionWorker;
  resources : list (ResourceType * string);
  policies : list PolicyResource;
  apiSecurityDefinitions : list (string * list (string * string));
  apiSecurity : list (string * list (string * list string)) }.

Definition emptyFunctionDependencies : FunctionDependencies :=
  {| apis := []; schedules := []; subscriptions := []; resources := [];
     policies := []; apiSecurityDefinitions := []; apiSecurity := [] |}.

Definition AddApiHandler (w : ApiWorker) (d : FunctionDependencies)
  : option error * FunctionDependencies :=
  (None, {| apis := apis d ++ [w]; schedules := schedules d;
            subscriptions := subscriptions d; resources := resources d;
            policies := policies d;
            apiSecurityDefinitions := apiSecurityDefinitions d;
            apiSecurity := apiSecurity d |}).

Definition AddScheduleHandler (w : ScheduleWorker) (d : FunctionDependencies)
  : option error * FunctionDependencies :=
  (None, {| apis := apis d; schedules := schedules d ++ [w];
            subscriptions := subscriptions d; resources := resources d;
            policies := policies d;
            apiSecurityDefinitions := apiSecurityDefinitions d;
            apiSecurity := apiSecurity d |}).

Definition AddSubscriptionHandler (w : SubscriptionWorker) (d : FunctionDependencies)
  : option error * FunctionDependencies :=
  (None, {| apis := apis d; schedules := schedules d;
            subscriptions := subscriptions d ++ [w]; resources := resources d;
            policies := policies d;
            apiSecurityDefinitions := apiSecurityDefinitions d;
            apiSecurity := apiSecurity d |}).

Definition ResourceType_eqb (a b : ResourceType) : bool :=
  match a, b with
  | ResourceType_Function, ResourceType_Function
  | ResourceType_Topic, ResourceType_Topic
  | ResourceType_Queue, ResourceType_Queue
  | ResourceType_Bucket, ResourceType_Bucket
  | ResourceType_Collection, ResourceType_Collection
  | ResourceType_Policy, ResourceType_Policy
  | ResourceType_Secret, ResourceType_Secret
  | ResourceType_Api, ResourceType_Api => true
  | ResourceType_Other n, ResourceType_Other m => Z.eqb n m
  | _, _ => false
  end.

(** Record the resource (kind, name) unless it is already declared. *)
Definition addResource (t : ResourceType) (name : string) (d : FunctionDependencies)
  : FunctionDependencies :=
  if existsb (fun '(t', n') => ResourceType_eqb t t' && String.eqb name n') (resources d)
  then d
  else {| apis := apis d; schedules := schedules d;
          subscriptions := subscriptions d; resources := resources d ++ [(t, name)];
          policies := policies d;
          apiSecurityDefinitions := apiSecurityDefinitions d;
          apiSecurity := apiSecurity d |}.

Definition AddBucket (name : string) (_ : option BucketResource) d :=
  addResource ResourceType_Bucket name d.
Definition AddCollection (name : string) (_ : option CollectionResource) d :=
  addResource ResourceType_Collection name d.
Definition AddQueue (name : string) (_ : option QueueResource) d :=
  addResource ResourceType_Queue name d.
Definition AddTopic (name : string) (_ : option TopicResource) d :=
  addResource ResourceType_Topic name d.
Definition AddSecret (name : string) (_ : option SecretResource) d :=
  addResource ResourceType_Secret name d.
Definition AddPolicy (p : option PolicyResource) (d : FunctionDependencies) :=
  match p with
  | None => d
  | Some p =>
    {| apis := apis d; schedules := schedules d;
       subscriptions := subscriptions d; resources := resources d;
       policies := policies d ++ [p];
       apiSecurityDefinitions := apiSecurityDefinitions d;
       apiSecurity := apiSecurity d |}
  end.
Definition AddApiSecurityDefinitions (name : string) (sd : list (string * string))
  (d : FunctionDependencies) :=
  {| apis := apis d; schedules := schedules d;
     subscriptions := subscriptions d; resources := resources d;
     policies := policies d;
     apiSecurityDefinitions := apiSecurityDefinitions d ++ [(name, sd)];
     apiSecurity := apiSecurity d |}.
Definition AddApiSecurity (name : string) (sec : list (string * list string))
  (d : FunctionDependencies) :=
  {| apis := apis d; schedules := schedules d;
     subscriptions := subscriptions d; resources := resources d;
     policies := policies d;
     apiSecurityDefinitions := apiSecurityDefinitions d;
     apiSecurity := apiSecurity d ++ [(name, sec)] |}.

(* ===================================================================== *)
(** * The code-as-config server *)
(* ===================================================================== *)

Module CodeConfig.

(** The stream as seen by the server: the client messages not read yet and
    the messages the server has sent. *)
Record Stream := { inbox : list ClientMessage; outbox : list ServerMessage }.

(** The state a server method runs against: the function it collects for
    ([s.function]) and its stream. *)
Record Session := { function : FunctionDependencies; stream : Stream }.

(** A state monad over the session. *)
Definition M (A : Type) := Session -> A * Session.
Definition ret {A} (a : A) : M A := fun s => (a, s).
Definition bind {A B} (m : M A) (k : A -> M B) : M B :=
  fun s => let '(a, s') := m s in k a s'.
Notation "'let!' x := m 'in' k" := (bind m (fun x => k))
  (at level 200, x ident, m at level 100, k at level 200).

(** [stream.Recv()]: the next client message, or [io.EOF] once the client
    has closed its side. *)
Definition Recv : M (ClientMessage + string) :=
  fun s =>
    match inbox (stream s) with
    | [] => (inr "EOF", s)
    | cm :: rest =>
      (inl cm, {| function := function s;
                  stream := {| inbox := rest; outbox := outbox (stream s) |} |})
    end.

(** Run a [FunctionDependencies] method on [s.function]. *)
Definition onFunction {A} (f : FunctionDependencies -> A * FunctionDependencies) : M A :=
  fun s => let '(a, d) := f (function s) in
           (a, {| function := d; stream := stream s |}).

Definition modifyFunction (f : FunctionDependencies -> FunctionDependencies) : M unit :=
  onFunction (fun d => (tt, f d)).

(** [Server.TriggerStream]; returning from the handler closes the stream. *)
Definition TriggerStream : M (option error) :=
  let! r := Recv in
  match r with
  | inr err =>
    ret (Some (StatusError Internal ("error reading message from stream: " ++ err)))
  | inl cm =>
    match GetInitRequest cm with
    | None =>
      ret (Some (StatusError FailedPrecondition "first message must be InitRequest"))
    | Some ir =>
      match Worker ir with
      | InitRequest_Api w => onFunction (AddApiHandler w)
      | InitRequest_Schedule w => onFunction (AddScheduleHandler w)
      | InitRequest_Subscription w => onFunction (AddSubscriptionHandler w)
      | InitRequest_NoWorker => ret None
      end
    end
  end.

(** [Server.Declare], for requests carrying a resource (a nil
    [req.Resource] panics in Go and is not modelled). An Api request whose
    config is not an Api config panics in Go as well; see [GetApi_Security]. *)
Definition Declare (req : ResourceDeclareRequest)
  : M (option ResourceDeclareResponse * option error) :=
  let name := Resource_Name (Declare_Resource req) in
  bind (match Resource_Type (Declare_Resource req) with
       | ResourceType_Bucket => modifyFunction (AddBucket name (GetBucket req))
       | ResourceType_Collection => modifyFunction (AddCollection name (GetCollection req))
       | ResourceType_Queue => modifyFunction (AddQueue name (GetQueue req))
       | ResourceType_Topic => modifyFunction (AddTopic name (GetTopic req))
       | ResourceType_Policy => modifyFunction (AddPolicy (GetPolicy req))
       | ResourceType_Secret => modifyFunction (AddSecret name (GetSecret req))
       | ResourceType_Api =>
         bind (modifyFunction (AddApiSecurityDefinitions name (GetApi_SecurityDefinitions req)))
           (fun _ => modifyFunction (AddApiSecurity name (GetApi_Security req)))
       | _ => ret tt
       end)
  (fun _ => ret (Some {| DeclareResponse_dummy := tt |}, None)).

(** [Server.Details]. *)
Definition Details (req : ResourceDetailsRequest)
  : M (option ResourceDetailsResponse * option error) :=
  let r := Details_Resource req in
  match Resource_Type r with
  | ResourceType_Api =>
    ret (Some {| Details_Provider := "dev"; Details_Service := "Api";
                 Details_Id := Resource_Name r;
                 Details_ApiUrl := "http://localhost:50051/apis/" ++ Resource_Name r |},
         None)
  | t => ret (None, Some (PlainError ("unsupported resource type " ++ ResourceType_String t)))
  end.

Definition mkSession (d : FunctionDependencies) (msgs : list ClientMessage)
    (sent : list ServerMessage) : Session :=
  {| function := d; stream := {| inbox := msgs; outbox := sent |} |}.

(** The resource kinds [Declare] dispatches on. *)
Definition recognizedKind (t : ResourceType) : bool :=
  match t with
  | ResourceType_Bucket | ResourceType_Collection | ResourceType_Queue
  | ResourceType_Topic | ResourceType_Policy | ResourceType_Secret
  | ResourceType_Api => true
  | _ => false
  end.

End CodeConfig.

(* ===================================================================== *)
(** * The dependency graph *)
(* ===================================================================== *)

Module Graph.

Inductive ResourceKind :=
| Bucket | Collection | Queue | Topic | Secret | Policy | ApiSecurityDefinition.

#[global] Instance ResourceKind_eq_dec : EqDecision ResourceKind.
Proof. solve_decision. Defined.

Definition ResourceKind_to_nat (k : ResourceKind) : nat :=
  match k with
  | Bucket => 0 | Collection => 1 | Queue => 2 | Topic => 3
  | Secret => 4 | Policy => 5 | ApiSecurityDefinition => 6
  end.

Definition nat_to_ResourceKind (n : nat) : option ResourceKind :=
  match n with
  | 0 => Some Bucket | 1 => Some Collection | 2 => Some Queue | 3 => Some Topic
  | 4 => Some Secret | 5 => Some Policy | 6 => Some ApiSecurityDefinition
  | _ => None
  end.

#[global] Program Instance ResourceKind_countable : Countable ResourceKind :=
  inj_countable ResourceKind_to_nat nat_to_ResourceKind _.
Next Obligation. intros []; reflexivity. Qed.

Record ResourceClaim := {
  kind : ResourceKind;
  name : string;
  requestingFunction : string;
  accessMode : string }.

Definition claimKey (c : ResourceClaim) : ResourceKind * string := (kind c, name c).
Definition claimPolicy (c : ResourceClaim) : string * string :=
  (requestingFunction c, accessMode c).

(** A graph resource per (kind, name), with its policy set of
    (function, access mode) pairs. *)
Abbreviation DependencyGraph := (gmap (ResourceKind * string) (gset (string * string))).

(** Modelled from the spec: the merge of section 4.5 (no merge code is among
    the sources).  Iterate the claims; the claim's (kind, name) entry gets the
    union of its policy set so far and the claim's (function, mode). *)
Definition mergeClaim (g : DependencyGraph) (c : ResourceClaim) : DependencyGraph :=
  <[claimKey c := {[claimPolicy c]} ∪ default ∅ (g !! claimKey c)]> g.

Definition merge (claims : list ResourceClaim) : DependencyGraph :=
  foldl mergeClaim ∅ claims.

(** The claims of [l] about the resource [k], and their policies. *)
Definition claimsAt (l : list ResourceClaim) (k : ResourceKind * string) :=
  filter (fun c => claimKey c = k) l.
Definition policiesAt (l : list ResourceClaim) (k : ResourceKind * string)
  : gset (string * string) :=
  list_to_set (claimPolicy <$> claimsAt l k).

(** Two claims on the same bucket, used as sample input. *)
Definition claimA : ResourceClaim :=
  {| kind := Bucket; name := "uploads"; requestingFunction := "A"; accessMode := "read" |}.
Definition claimB : ResourceClaim :=
  {| kind := Bucket; name := "uploads"; requestingFunction := "B"; accessMode := "write" |}.

End Graph.

(* ===================================================================== *)
(** * Image builds ([pkg/build/build.go]) *)
(* ===================================================================== *)

Module Build.

Record Function := { Function_Name : string; Function_Handler : string }.
Record Container := { Container_Name : string; Container_Dockerfile : string }.
Record Project := {
  Project_Name : string;
  Project_Dir : string;
  Functions : list Function;
  Containers : list Container }.

(** A call of the container engine's [Build(dockerfile, context, tag,
    buildArgs)].  [bc_for] is the handler the call was made for ("" for
    containers); it is not passed to the engine and is kept for the proofs. *)
Record BuildCall := {
  bc_dockerfile : string;
  bc_context : string;
  bc_tag : string;
  bc_args : list (string * string);
  bc_for : string }.

(** The part of the world the passes touch: the files on disk, the sequence
    of names [os.CreateTemp] draws from, the engine's build log, and the
    running function's deferred removals (most recent first). *)
Record BState := {
  files : list string;
  tempSeq : nat;
  builds : list BuildCall;
  defers : list string }.

(** Outcome of a Go call: a value, a returned error, or a panic. *)
Inductive Res (A : Type) :=
| ROk (a : A)
| RErr (e : error)
| RPanic.
Arguments ROk {A} a.
Arguments RErr {A} e.
Arguments RPanic {A}.

Definition BM (A : Type) := BState -> Res A * BState.

Definition bret {A} (a : A) : BM A := fun st => (ROk a, st).
Definition bbind {A B} (m : BM A) (k : A -> BM B) : BM B :=
  fun st =>
    match m st with
    | (ROk a, st') => k a st'
    | (RErr e, st') => (RErr e, st')
    | (RPanic, st') => (RPanic, st')
    end.
Notation "'let!' x := m 'in' k" := (bbind m (fun x => k))
  (at level 200, x ident, m at level 100, k at level 200).
Definition lift {A} (r : Res A) : BM A := fun st => (r, st).

Fixpoint forEach {A} (body : A -> BM unit) (l : list A) : BM unit :=
  match l with
  | [] => bret tt
  | x :: l' => bbind (body x) (fun _ => forEach body l')
  end.

(** An open file: its directory and base name; [Name()] joins them. *)
Record File := { File_dir : string; File_base : string }.
Definition File_Name (f : File) : string := File_dir f ++ "/" ++ File_base f.

Definition tempBase (n : nat) : string :=
  "nitric.dynamic.Dockerfile." ++ pretty (N.of_nat n).

Definition setFiles (fs : list string) (st : BState) : BState :=
  {| files := fs; tempSeq := tempSeq st; builds := builds st; defers := defers st |}.
Definition setTempSeq (n : nat) (st : BState) : BState :=
  {| files := files st; tempSeq := n; builds := builds st; defers := defers st |}.
Definition setBuilds (b : list BuildCall) (st : BState) : BState :=
  {| files := files st; tempSeq := tempSeq st; builds := b; defers := defers st |}.
Definition setDefers (d : list string) (st : BState) : BState :=
  {| files := files st; tempSeq := tempSeq st; builds := builds st; defers := d |}.

(** [os.Remove(name)]; its error is ignored by the callers. *)
Definition Remove (name : string) (fs : list string) : list string :=
  filter (fun x => x ≠ name) fs.

(** The deferred calls run when a function returns or panics, last first. *)
Definition runDefers (st : BState) : BState :=
  setFiles (foldl (fun fs nm => Remove nm fs) (files st) (defers st)) st.

(** A Go function body with its own defer stack. *)
Definition runFunc {A} (body : BM A) : BM A :=
  fun st =>
    let '(r, st1) := body (setDefers [] st) in
    (r, setDefers (defers st) (runDefers st1)).

Definition defer_remove (f : File) : BM unit :=
  fun st => (ROk tt, setDefers (File_Name f :: defers st) st).

(** [filepath.Ext]: the suffix from the final dot of the last path element. *)
Fixpoint extRev (rev : list ascii) (acc : list ascii) : string :=
  match rev with
  | [] => ""
  | c :: rest =>
    if Ascii.eqb c "/" then ""
    else if Ascii.eqb c "." then string_of_list_ascii (c :: acc)
    else extRev rest (c :: acc)
  end.
Definition Ext (path : string) : string :=
  extRev (rev (list_ascii_of_string path)) [].

(** [strings.Replace(s, ".", "", 1)]: drop the first dot. *)
Fixpoint replaceFirstDot (l : list ascii) : list ascii :=
  match l with
  | [] => []
  | c :: rest => if Ascii.eqb c "." then rest else c :: replaceFirstDot rest
  end.
Definition Replace_dot_once (s : string) : string :=
  string_of_list_ascii (replaceFirstDot (list_ascii_of_string s)).

(** The language key of a handler in [CreateBaseDev]. *)
Definition handlerLang (handler : string) : string := Replace_dot_once (Ext handler).

(** [_, ok := imagesToBuild[lang]] on the map kept as an association list. *)
Definition hasKey (k : string) (m : list (string * string)) : bool :=
  existsb (fun '(k', _) => String.eqb k' k) m.

(** The directories for which the [CreateTemp] model names the file as Go
    does: non-empty and not ending in a path separator. *)
Definition joinableDir (dir : string) : bool :=
  match rev (list_ascii_of_string dir) with
  | [] => false
  | c :: _ => negb (Ascii.eqb c "/")
  end.

(** [os.CreateTemp] tries up to 10000 fresh names, opening with O_EXCL so an
    existing file is never reused. *)
Fixpoint createTempTry (dir : string) (fuel : nat) : BM File :=
  fun st =>
    match fuel with
    | 0 => (RErr (PlainError "createtemp: file already exists"), st)
    | S k =>
      let f := {| File_dir := dir; File_base := tempBase (tempSeq st) |} in
      let st' := setTempSeq (S (tempSeq st)) st in
      if decide (File_Name f ∈ files st) then createTempTry dir k st'
      else (ROk f, setFiles (File_Name f :: files st') st')
    end.

(** The collaborators the passes use through narrow interfaces: the
    container engine ([Discover], [Build]), the runtime package and the
    project's naming methods.  The theorems hold for every choice of them. *)
Record Collaborators := {
  Runtime : Type;
  Discover : Res unit;
  NewRunTimeFromHandler : string -> Res Runtime;
  FunctionDockerfile : Runtime -> string -> string -> string -> Res unit;
  FunctionDockerfileForCodeAsConfig : Runtime -> Res unit;
  DevImageName : Runtime -> string;
  EngineBuild : string -> string -> string -> list (string * string) -> Res unit;
  (** failures of [os.CreateTemp] other than name clashes (permissions, ...),
      by the position in the temp-name sequence *)
  CreateTemp_err : nat -> option error;
  VersionString : Function -> Project -> string;
  ImageTagName : Function -> Project -> string -> string;
  Container_ImageTagName : Container -> Project -> string -> string }.

Section Passes.

Variable E : Collaborators.

(** [os.CreateTemp(dir, pattern)] for a directory the callers pass: the
    project directory, which is non-empty and names no trailing separator.
    Go's other cases (an empty [dir] meaning [os.TempDir()], a [dir] ending
    in a separator joined without a second one) are not modelled; see
    [joinableDir]. *)
Definition CreateTemp (dir : string) : BM File :=
  fun st =>
    match CreateTemp_err E (tempSeq st) with
    | Some e => (RErr e, st)
    | None => createTempTry dir 10000 st
    end.

Definition dynamicDockerfile (dir name : string) : BM File := CreateTemp dir.

Definition build (bc : BuildCall) : BM unit :=
  fun st =>
    (EngineBuild E (bc_dockerfile bc) (bc_context bc) (bc_tag bc) (bc_args bc),
     setBuilds (builds st ++ [bc]) st).

(** One iteration of the functions loop of [Create]. *)
Definition createFunction (s : Project) (provider : string) (f : Function) : BM unit :=
  let! fh := dynamicDockerfile (Project_Dir s) (Function_Name f) in
  let! _u := defer_remove fh in
  let! rt := lift (NewRunTimeFromHandler E (Function_Handler f)) in
  let! _u := lift (FunctionDockerfile E rt (Project_Dir s) (VersionString E f s) provider) in
  build {| bc_dockerfile := File_base fh; bc_context := Project_Dir s;
           bc_tag := ImageTagName E f s provider;
           bc_args := [("PROVIDER", provider)]; bc_for := Function_Handler f |}.

(** The Dockerfile path [filepath.Join(s.Dir, c.Dockerfile)] is written
    as the two parts joined by "/", without [filepath.Clean]; no theorem
    here depends on its text. *)
Definition createContainer (s : Project) (provider : string) (c : Container) : BM unit :=
  build {| bc_dockerfile := Project_Dir s ++ "/" ++ Container_Dockerfile c;
           bc_context := Project_Dir s;
           bc_tag := Container_ImageTagName E c s provider;
           bc_args := [("PROVIDER", provider)]; bc_for := "" |}.

(** [Create(s, t)] with [t.Provider = provider]. *)
Definition Create (s : Project) (provider : string) : BM unit :=
  runFunc (
    let! _u := lift (Discover E) in
    let! _u := forEach (createFunction s provider) (Functions s) in
    forEach (createContainer s provider) (Containers s)).

(** The loop of [CreateBaseDev]; [imagesToBuild] maps a language to its dev
    image. *)
Fixpoint baseDevLoop (s : Project) (fs : list Function)
    (imagesToBuild : list (string * string)) : BM unit :=
  match fs with
  | [] => bret tt
  | f :: fs' =>
    let! rt := lift (NewRunTimeFromHandler E (Function_Handler f)) in
    let lang := handlerLang (Function_Handler f) in
    if hasKey lang imagesToBuild then baseDevLoop s fs' imagesToBuild
    else
      let! fh := dynamicDockerfile (Project_Dir s) (Function_Name f) in
      let! _u := defer_remove fh in
      let! _u := lift (FunctionDockerfileForCodeAsConfig E rt) in
      let! _u := build {| bc_dockerfile := File_base fh; bc_context := Project_Dir s;
                          bc_tag := DevImageName E rt; bc_args := [];
                          bc_for := Function_Handler f |} in
      baseDevLoop s fs' ((lang, DevImageName E rt) :: imagesToBuild)
  end.

(** [CreateBaseDev(s)]. *)
Definition CreateBaseDev (s : Project) : BM unit :=
  runFunc (
    let! _u := lift (Discover E) in
    baseDevLoop s (Functions s) []).

End Passes.

(** Every file the running function has created and not yet removed is on
    its defer stack, and none of those was on disk before ([F]). *)
Definition descriptorsTracked (F : list string) (st : BState) : Prop :=
  (forall x, x ∈ files st <-> x ∈ F \/ x ∈ defers st) /\
  (forall x, x ∈ defers st -> x ∉ F).

(** A concrete setting: two TypeScript functions whose engine build fails
    for the first one only. *)
Definition fnA : Function := {| Function_Name := "a"; Function_Handler := "functions/a.ts" |}.
Definition fnB : Function := {| Function_Name := "b"; Function_Handler := "functions/b.ts" |}.
Definition fnC : Function := {| Function_Name := "c"; Function_Handler := "functions/c.go" |}.

Definition exampleCollaborators : Collaborators := {|
  Runtime := string;
  Discover := ROk tt;
  NewRunTimeFromHandler := fun h => ROk (handlerLang h);
  FunctionDockerfile := fun _ _ _ _ => ROk tt;
  FunctionDockerfileForCodeAsConfig := fun _ => ROk tt;
  DevImageName := fun lang => "nitric-" ++ lang ++ "-dev";
  EngineBuild := fun _ _ tag _ =>
    if String.eqb tag "a-aws" then RErr (PlainError "build failed") else ROk tt;
  CreateTemp_err := fun _ => None;
  VersionString := fun _ _ => "v1";
  ImageTagName := fun f _ provider => Function_Name f ++ "-" ++ provider;
  Container_ImageTagName := fun c _ provider => Container_Name c ++ "-" ++ provider |}.

Definition exampleProject (fs : list Function) : Project :=
  {| Project_Name := "p"; Project_Dir := "/p"; Functions := fs; Containers := [] |}.

Definition emptyBState : BState :=
  {| files := []; tempSeq := 0; builds := []; defers := [] |}.

Definition keepsTracked {A} (m : BM A) : Prop :=
  forall F st, descriptorsTracked F st -> descriptorsTracked F (snd (m st)).

End Build.

(* ===================================================================== *)
(** * Table output ([pkg/output/format.go]) *)
(* ===================================================================== *)

Module Output.

Inductive Kind :=
| KBool | KInt | KString | KStruct | KSlice | KArray | KMap
| KFunc | KChan | KInterface | KPtr.

(** A [reflect.Value] of the shapes printMap meets. *)
Inductive Value :=
| VBool (b : bool)
| VInt (z : Z)
| VString (s : string)
| VStruct (fields : list Value)
| VSlice (elems : list Value)
| VArray (elems : list Value)
| VMap (entries : list (Value * Value))
| VFunc
| VChan
| VInterface (inner : Value)
| VPtr (target : Value).

Definition Value_Kind (v : Value) : Kind :=
  match v with
  | VBool _ => KBool | VInt _ => KInt | VString _ => KString
  | VStruct _ => KStruct | VSlice _ => KSlice | VArray _ => KArray
  | VMap _ => KMap | VFunc => KFunc | VChan => KChan
  | VInterface _ => KInterface | VPtr _ => KPtr
  end.

Definition Kind_String (k : Kind) : string :=
  match k with
  | KBool => "bool" | KInt => "int" | KString => "string" | KStruct => "struct"
  | KSlice => "slice" | KArray => "array" | KMap => "map" | KFunc => "func"
  | KChan => "chan" | KInterface => "interface" | KPtr => "ptr"
  end.

(** [reflect.Value.String()]: the string itself for a string, otherwise
    ["<T Value>"].  The model writes the kind's name for [T]; the keys of one
    map share one type, so all its non-string keys get one and the same
    string, as in Go. *)
Definition Value_String (v : Value) : string :=
  match v with
  | VString s => s
  | _ => "<" ++ Kind_String (Value_Kind v) ++ " Value>"
  end.

(** A struct field's tags ([yaml:"..."], [json:"..."]; "" when absent). *)
Record StructField := { Tag_yaml : string; Tag_json : string }.

(** The element type of the printed map. *)
Inductive Ty :=
| TStruct (fields : list StructField)
| TSlice | TArray | TFunc | TChan | TInterface | TMap
| TSimple.

(** [strings.Split(s, ",")[0]]. *)
Fixpoint firstFieldL (l : list ascii) : list ascii :=
  match l with
  | [] => []
  | c :: rest => if Ascii.eqb c "," then [] else c :: firstFieldL rest
  end.
Definition firstField (s : string) : string :=
  string_of_list_ascii (firstFieldL (list_ascii_of_string s)).

(** [nameFromField]: the first element of the yaml tag, else of the json tag. *)
Definition nameFromField (f : StructField) : string :=
  if negb (String.eqb (Tag_yaml f) "") then firstField (Tag_yaml f)
  else if negb (String.eqb (Tag_json f) "") then firstField (Tag_json f)
  else "".

Definition namesFrom (t : Ty) : list string :=
  match t with
  | TStruct fs => filter (fun n => n ≠ "") (map nameFromField fs)
  | TSlice | TArray | TFunc | TChan | TInterface | TMap => []
  | TSimple => ["value"]
  end.

(** [keyList[i].String() < keyList[j].String()]: Go compares strings
    bytewise, as [String.compare] does. *)
Definition keyLess (a b : Value) : bool :=
  match String.compare (Value_String a) (Value_String b) with
  | Lt => true
  | _ => false
  end.

(** [sort.SliceStable]: the order it yields is the unique stable one; the
    model computes it by insertion.  Each key travels with the value
    [value.MapIndex(k)] returns for it (map keys are distinct). *)
Fixpoint insertStable (x : Value * Value) (l : list (Value * Value)) :=
  match l with
  | [] => [x]
  | y :: rest => if keyLess (fst x) (fst y) then x :: y :: rest
                 else y :: insertStable x rest
  end.
Definition sortStable (l : list (Value * Value)) : list (Value * Value) :=
  foldl (fun acc x => insertStable x acc) [] l.

(** The row of one map entry, if its value has a supported kind. *)
Definition mapRow (names : list string) (e : Value * Value) : option (list Value) :=
  let '(k, v) := e in
  match v with
  | VStruct fields => Some (k :: take (List.length names) fields)
  | VSlice _ | VArray _ | VFunc | VChan | VInterface _ | VMap _ => None
  | _ => Some [k; v]
  end.

(** [printMap]: the header and the rows handed to the table writer, for a
    map whose [MapRange] iteration yields the entries [iter]. *)
Definition printMap (elem : Ty) (iter : list (Value * Value))
  : list Value * list (list Value) :=
  let names := namesFrom elem in
  (VString "key" :: map VString names,
   omap (mapRow names) (sortStable iter)).

(** Entries for which printMap emits a row. *)
Definition supportedEntry (e : Value * Value) : bool :=
  match snd e with
  | VSlice _ | VArray _ | VFunc | VChan | VInterface _ | VMap _ => false
  | _ => true
  end.

Definition isStringKey (v : Value) : Prop :=
  match v with VString _ => True | _ => False end.

Definition rowKeyLess (r1 r2 : list Value) : Prop :=
  match r1, r2 with
  | k1 :: _, k2 :: _ => keyLess k1 k2 = true
  | _, _ => False
  end.

(** Sorted order of map entries by the key's string. *)
Definition entryLess (a b : Value * Value) : Prop := keyLess (fst a) (fst b) = true.

(** The keys are strings, pairwise distinct (the keys of a Go map). *)
Definition distinctStringKeys (l : list (Value * Value)) : Prop :=
  Forall (fun e => isStringKey (fst e)) l /\ NoDup (map fst l).

End Output.

(* ===================================================================== *)
(** * [List] of [pkg/build/build.go] *)
(* ===================================================================== *)

Module BuildList.
Import Build.

Section ListPass.

(** The engine's image type, [containerengine.Discover()] and the engine's
    [ListImages(stackName, containerName)]. *)
Variable Image : Type.
Variable Discover : Res unit.
Variable ListImages : string -> string -> Res (list Image).

(** One loop of [List]: a failed lookup is printed
    ([fmt.Println("Error: ", err)]; the model keeps the printed errors) and
    skipped; a panic of the engine propagates. *)
Fixpoint listLoop (stackName : string) (names : list string)
    (images : list Image) (printed : list error) : Res (list Image) * list error :=
  match names with
  | [] => (ROk images, printed)
  | n :: ns =>
    match ListImages stackName n with
    | RErr e => listLoop stackName ns images (printed ++ [e])%list
    | ROk imgs => listLoop stackName ns (images ++ imgs)%list printed
    | RPanic => (RPanic, printed)
    end
  end.

(** [List(s)]: the images and the errors printed on the way. *)
Definition List (s : Project) : Res (list Image) * list error :=
  match Discover with
  | RErr e => (RErr e, [])
  | RPanic => (RPanic, [])
  | ROk _ =>
    let '(r, printed) := listLoop (Project_Name s) (map Function_Name (Functions s)) [] [] in
    match r with
    | ROk images => listLoop (Project_Name s) (map Container_Name (Containers s)) images printed
    | RErr e => (RErr e, printed)
    | RPanic => (RPanic, printed)
    end
  end.

(** The images one lookup contributes, and the error it prints. *)
Definition lookupImages (stackName n : string) : list Image :=
  match ListImages stackName n with ROk imgs => imgs | _ => [] end.
Definition lookupError (stackName n : string) : option error :=
  match ListImages stackName n with RErr e => Some e | _ => None end.

End ListPass.

(** The names [List] looks up: the functions', then the containers'. *)
Definition listedNames (s : Project) : list string :=
  (map Function_Name (Functions s) ++ map Container_Name (Containers s))%list.

(** The functions [CreateBaseDev] builds a dev image for: the first handler
    of each language, in project order. *)
Fixpoint firstPerLang (seen : list string) (fs : list Function) : list Function :=
  match fs with
  | [] => []
  | f :: fs' =>
    let lang := handlerLang (Function_Handler f) in
    if bool_decide (lang ∈ seen) then firstPerLang seen fs'
    else f :: firstPerLang (lang :: seen) fs'
  end.

End BuildList.

(* ===================================================================== *)
(** * [printList] and [printStruct] of [pkg/output/format.go] *)
(* ===================================================================== *)

Module OutputMore.
Import Output.

(** What printList puts in a cell for field [fi]: the field itself, or for a
    pointer field the value it points to ([Elem()]).  The model's pointers
    are never nil: Go's [Elem()] of a nil pointer is the zero
    [reflect.Value], rendered as [<invalid reflect.Value>], a case not
    covered here. *)
Definition listCell (v : Value) : Value :=
  match v with VPtr t => t | _ => v end.

(** The loop over the fields of a struct element: a field is appended while
    the row is shorter than the header. *)
Definition listStructRow (n : nat) (fields : list Value) : list Value :=
  foldl (fun row fv => if decide (List.length row < n) then (row ++ [listCell fv])%list else row)
        [] fields.

(** The row of one element, if its kind is supported. *)
Definition listRow (names : list string) (v : Value) : option (list Value) :=
  match v with
  | VStruct fields => Some (listStructRow (List.length names) fields)
  | VSlice _ | VArray _ | VFunc | VChan | VInterface _ | VMap _ => None
  | _ => Some [v]
  end.

(** [printList]: the header (appended only when there are names) and the
    rows, for a slice or array with elements [elems]. *)
Definition printList (elem : Ty) (elems : list Value) : option (list Value) * list (list Value) :=
  let names := namesFrom elem in
  (match names with [] => None | _ => Some (map VString names) end,
   omap (listRow names) elems).

(** [printStruct] for a struct of type [fields] with field values [vals]
    ([v] has type [t], so both have [NumField()] entries); [strings.ToUpper]
    is a parameter. *)
Definition printStruct (ToUpper : string -> string) (fields : list StructField)
    (vals : list Value) : list (list Value) :=
  omap (fun '(f, v) =>
          let name := nameFromField f in
          if String.eqb name "" then None else Some [VString (ToUpper name); v])
       (zip fields vals).

(** A value of Go type [t]: a struct has one value per field; a map or slice
    of interface type yields values of kind [Interface]. *)
Definition valueHasTy (t : Ty) (v : Value) : bool :=
  match t, v with
  | TStruct fs, VStruct vs => Nat.eqb (List.length vs) (List.length fs)
  | TSlice, VSlice _ | TArray, VArray _ | TFunc, VFunc | TChan, VChan
  | TInterface, VInterface _ | TMap, VMap _ => true
  | TSimple, (VBool _ | VInt _ | VString _ | VPtr _) => true
  | _, _ => false
  end.

(** Element types whose values get a row. *)
Definition rowTy (t : Ty) : bool :=
  match t with TStruct _ | TSimple => true | _ => false end.

(** A tag value with no comma. *)
Definition commaFree (s : string) : bool :=
  forallb (fun c => negb (Ascii.eqb c ",")) (list_ascii_of_string s).

End OutputMore.

(* ===================================================================== *)
(** * The root command's setup ([package main]) *)
(* ===================================================================== *)

Module Main.

(** [strings.Split(s, " ")]: [cur] is the current piece, reversed. *)
Fixpoint splitSpaceL (l : list ascii) (cur : list ascii) : list string :=
  match l with
  | [] => [string_of_list_ascii (rev cur)]
  | c :: rest =>
    if Ascii.eqb c " " then string_of_list_ascii (rev cur) :: splitSpaceL rest []
    else splitSpaceL rest (c :: cur)
  end.
Definition Split_space (s : string) : list string :=
  splitSpaceL (list_ascii_of_string s) [].

(** The [Run] of the command [addAlias(from, to)] registers: the new
    [os.Args] it sets before running the root command again ([None]:
    [os.Args[0]] panics when [os.Args] is empty). *)
Definition aliasArgs (osArgs : list string) (from : string) (args : list string)
  : option (list string) :=
  match osArgs with
  | [] => None
  | a0 :: _ => Some (([a0] ++ Split_space from) ++ args)%list
  end.

(** A word of a command path: non-empty, no space. *)
Definition spaceFree (w : string) : bool :=
  forallb (fun c => negb (Ascii.eqb c " ")) (list_ascii_of_string w).

(** [time.Minute] in nanoseconds ([time.Duration]). *)
Definition minute : Z := 60000000000.

Section Config.

(** The viper keys other than [build_timeout], and the two packages'
    default setters on them ([target.EnsureDefaultConfig],
    [stack.EnsureRuntimeDefaults]: whether they added anything, and the new
    keys).  [WriteOutcome] is the outcome of creating the config directory
    and writing the file; an error makes [tasklet.MustRun] stop the CLI. *)
Variable Cfg : Type.
Variable EnsureDefaultConfig : Cfg -> bool * Cfg.
Variable EnsureRuntimeDefaults : Cfg -> bool * Cfg.
Variable WriteOutcome : Build.Res unit.

(** Viper's settings: [GetDuration("build_timeout")] (0 when unset) and the
    rest. *)
Record Viper := { build_timeout : Z; others : Cfg }.

(** [ensureConfigDefaults]: its outcome, the settings afterwards and the
    settings written to the config file, if it writes. *)
Definition ensureConfigDefaults (v : Viper) : Build.Res unit * Viper * option Viper :=
  let '(needsWrite, v1) :=
    if Z.eqb (build_timeout v) 0
    then (true, {| build_timeout := 5 * minute; others := others v |})
    else (false, v) in
  let '(c1, o1) := EnsureDefaultConfig (others v1) in
  let needsWrite := needsWrite || c1 in
  let '(c2, o2) := EnsureRuntimeDefaults o1 in
  let needsWrite := needsWrite || c2 in
  let v2 := {| build_timeout := build_timeout v1; others := o2 |} in
  if needsWrite then (WriteOutcome, v2, Some v2) else (Build.ROk tt, v2, None).

End Config.

End Main.

(* ===================================================================== *)
(** * Properties of the code-as-config server *)
(* ===================================================================== *)

Module ServerFacts.
Import CodeConfig.

(** C1: when the first message received is not an InitRequest,
    TriggerStream reads only that message, fails with the FailedPrecondition
    status "first message must be InitRequest" (the protocol violation), sends
    nothing and leaves the function's dependencies unchanged. *)
Theorem TriggerStream_non_init_first_message (d : FunctionDependencies)
    (cm : ClientMessage) (rest : list ClientMessage) (sent : list ServerMessage) :
  GetInitRequest cm = None ->
  TriggerStream (mkSession d (cm :: rest) sent) =
  (Some (StatusError FailedPrecondition "first message must be InitRequest"),
   mkSession d rest sent).
Proof.
  intros Hcm. unfold TriggerStream, bind, Recv, mkSession. simpl.
  rewrite Hcm. reflexivity.
Qed.

Lemma TriggerStream_non_init_first_message_witness :
  GetInitRequest (ClientMessage_TriggerResponse "r1") = None /\
  TriggerStream (mkSession emptyFunctionDependencies
                   [ClientMessage_TriggerResponse "r1"] []) =
  (Some (StatusError FailedPrecondition "first message must be InitRequest"),
   mkSession emptyFunctionDependencies [] []).
Proof.
  split; [reflexivity |].
  apply (TriggerStream_non_init_first_message emptyFunctionDependencies
           (ClientMessage_TriggerResponse "r1") [] []).
  reflexivity.
Defined.

(** C4: on an InitRequest carrying an Api, Schedule or Subscription worker,
    TriggerStream appends exactly that worker to the matching binding list of
    the function's dependencies, leaves everything else unchanged, consumes
    only the InitRequest (the later messages stay unread), sends nothing and
    returns without error, which closes the stream. *)
Theorem TriggerStream_records_trigger_binding (d : FunctionDependencies)
    (rest : list ClientMessage) (sent : list ServerMessage) :
  (forall w : ApiWorker,
     TriggerStream (mkSession d
       (ClientMessage_InitRequest {| Worker := InitRequest_Api w |} :: rest) sent) =
     (None, mkSession
       {| apis := apis d ++ [w]; schedules := schedules d;
          subscriptions := subscriptions d; resources := resources d;
          policies := policies d;
          apiSecurityDefinitions := apiSecurityDefinitions d;
          apiSecurity := apiSecurity d |} rest sent)) /\
  (forall w : ScheduleWorker,
     TriggerStream (mkSession d
       (ClientMessage_InitRequest {| Worker := InitRequest_Schedule w |} :: rest) sent) =
     (None, mkSession
       {| apis := apis d; schedules := schedules d ++ [w];
          subscriptions := subscriptions d; resources := resources d;
          policies := policies d;
          apiSecurityDefinitions := apiSecurityDefinitions d;
          apiSecurity := apiSecurity d |} rest sent)) /\
  (forall w : SubscriptionWorker,
     TriggerStream (mkSession d
       (ClientMessage_InitRequest {| Worker := InitRequest_Subscription w |} :: rest) sent) =
     (None, mkSession
       {| apis := apis d; schedules := schedules d;
          subscriptions := subscriptions d ++ [w]; resources := resources d;
          policies := policies d;
          apiSecurityDefinitions := apiSecurityDefinitions d;
          apiSecurity := apiSecurity d |} rest sent)).
Proof. repeat split; reflexivity. Qed.

(** C6: on an InitRequest with no Api, Schedule or Subscription worker,
    TriggerStream returns without error, adds no trigger binding (the
    dependencies are unchanged) and reads nothing after the InitRequest. *)
Theorem TriggerStream_plain_function (d : FunctionDependencies)
    (rest : list ClientMessage) (sent : list ServerMessage) :
  TriggerStream (mkSession d
    (ClientMessage_InitRequest {| Worker := InitRequest_NoWorker |} :: rest) sent) =
  (None, mkSession d rest sent).
Proof. reflexivity. Qed.

(** C2 (counterexample): declaring a resource of kind Function, outside the
    recognized set, returns no error. *)
Lemma Declare_unsupported_kind_no_error :
  snd (fst (Declare {| Declare_Resource :=
                         {| Resource_Type := ResourceType_Function; Resource_Name := "f" |};
                       Declare_Config := Config_None |}
                    (mkSession emptyFunctionDependencies [] []))) = None.
Proof. reflexivity. Qed.

(** C2 (amended): declaring a resource whose kind is outside the recognized
    set returns an empty response with no error and leaves the session,
    hence every claim accumulated so far, unchanged. *)
Theorem Declare_unrecognized_kind_is_noop (req : ResourceDeclareRequest) (s : Session) :
  recognizedKind (Resource_Type (Declare_Resource req)) = false ->
  Declare req s = ((Some {| DeclareResponse_dummy := tt |}, None), s).
Proof.
  intros H. unfold Declare, bind, ret.
  destruct (Resource_Type (Declare_Resource req)); try discriminate; reflexivity.
Qed.

Lemma Declare_unrecognized_kind_is_noop_witness :
  recognizedKind ResourceType_Function = false /\
  Declare {| Declare_Resource :=
               {| Resource_Type := ResourceType_Function; Resource_Name := "f" |};
             Declare_Config := Config_None |}
          (mkSession emptyFunctionDependencies [] []) =
  ((Some {| DeclareResponse_dummy := tt |}, None),
   mkSession emptyFunctionDependencies [] []).
Proof.
  split; [reflexivity |].
  apply Declare_unrecognized_kind_is_noop. reflexivity.
Defined.

(** C7 (counterexample): with nothing declared, a Details query for the Api
    "orders" still returns connection metadata and no error. *)
Lemma Details_undeclared_api_answers :
  resources emptyFunctionDependencies = [] /\
  apiSecurityDefinitions emptyFunctionDependencies = [] /\
  fst (Details {| Details_Resource :=
                    {| Resource_Type := ResourceType_Api; Resource_Name := "orders" |} |}
               (mkSession emptyFunctionDependencies [] [])) =
  (Some {| Details_Provider := "dev"; Details_Service := "Api";
           Details_Id := "orders";
           Details_ApiUrl := "http://localhost:50051/apis/orders" |}, None).
Proof. repeat split. Qed.

(** C7 (amended): Details does not consult the declared resources: for every
    Api query it returns the dev metadata built from the queried name, for
    every other kind it fails with "unsupported resource type <kind>", and it
    leaves the session unchanged. *)
Theorem Details_ignores_declarations (r : Resource) (s : Session) :
  Details {| Details_Resource := r |} s =
  (match Resource_Type r with
   | ResourceType_Api =>
     (Some {| Details_Provider := "dev"; Details_Service := "Api";
              Details_Id := Resource_Name r;
              Details_ApiUrl := "http://localhost:50051/apis/" ++ Resource_Name r |},
      None)
   | t => (None, Some (PlainError ("unsupported resource type " ++ ResourceType_String t)))
   end, s).
Proof. unfold Details, ret. simpl. destruct (Resource_Type r); reflexivity. Qed.

End ServerFacts.

(* ===================================================================== *)
(** * Properties of the dependency-graph merge *)
(* ===================================================================== *)

Module GraphFacts.
Import Graph.

(** The entry of [k] after merging [l] into [g]: untouched when [l] has no
    claim about [k], otherwise the old policy set joined with the policies of
    those claims. *)
Lemma merge_from_lookup (l : list ResourceClaim) (g : DependencyGraph)
    (k : ResourceKind * string) :
  foldl mergeClaim g l !! k =
  if decide (claimsAt l k = []) then g !! k
  else Some (default ∅ (g !! k) ∪ policiesAt l k).
Proof.
  revert g. induction l as [|c l IH]; intros g; cbn [foldl].
  - rewrite decide_True; done.
  - rewrite IH. unfold policiesAt, claimsAt in *. rewrite filter_cons.
    unfold mergeClaim.
    destruct (decide (claimKey c = k)) as [Hk|Hk].
    + subst k. rewrite lookup_insert_eq.
      rewrite (decide_False (P := c :: _ = [])) by done. simpl.
      destruct (decide (filter (fun c0 => claimKey c0 = claimKey c) l = [])) as [Hn|Hn].
      * rewrite Hn. simpl. f_equal. set_solver.
      * f_equal. set_solver.
    + rewrite lookup_insert_ne by done. reflexivity.
Qed.

Lemma claimsAt_nil_iff (l1 l2 : list ResourceClaim) (k : ResourceKind * string) :
  (forall c, c ∈ l1 <-> c ∈ l2) -> claimsAt l1 k = [] -> claimsAt l2 k = [].
Proof.
  intros Hset Hnil. apply elem_of_nil_inv. intros c Hc.
  unfold claimsAt in *. apply list_elem_of_filter in Hc as [Hk Hc].
  apply Hset in Hc.
  assert (c ∈ filter (fun c0 => claimKey c0 = k) l1) as Hin
    by (apply list_elem_of_filter; auto).
  rewrite Hnil in Hin. set_solver.
Qed.

Lemma policiesAt_ext (l1 l2 : list ResourceClaim) (k : ResourceKind * string) :
  (forall c, c ∈ l1 <-> c ∈ l2) -> policiesAt l1 k = policiesAt l2 k.
Proof.
  intros Hset. apply set_eq. intros p. unfold policiesAt, claimsAt.
  rewrite !elem_of_list_to_set, !list_elem_of_fmap.
  setoid_rewrite list_elem_of_filter. setoid_rewrite Hset. reflexivity.
Qed.

(** C3: the merged graph depends only on the set of claims: merging two
    claim lists with the same elements (in any order, with any repetition)
    yields the same graph.  In particular merging is commutative
    ([merge (l1 ++ l2) = merge (l2 ++ l1)]) and idempotent
    ([merge (l ++ l) = merge l]). *)
Theorem merge_same_claim_set (l1 l2 : list ResourceClaim) :
  (forall c, c ∈ l1 <-> c ∈ l2) -> merge l1 = merge l2.
Proof.
  intros Hset. apply map_eq. intros k. unfold merge.
  rewrite !merge_from_lookup, !lookup_empty.
  rewrite (policiesAt_ext l1 l2 k Hset).
  destruct (decide (claimsAt l1 k = [])) as [H1|H1];
  destruct (decide (claimsAt l2 k = [])) as [H2|H2]; try reflexivity.
  - exfalso. apply H2. eapply claimsAt_nil_iff; eauto.
  - exfalso. apply H1. eapply claimsAt_nil_iff; [|eauto]. intros c. symmetry. auto.
Qed.

Lemma merge_same_claim_set_witness :
  (forall c, c ∈ [claimA; claimB] <-> c ∈ [claimB; claimA; claimB]) /\
  merge [claimA; claimB] = merge [claimB; claimA; claimB].
Proof.
  assert (H : forall c, c ∈ [claimA; claimB] <-> c ∈ [claimB; claimA; claimB])
    by (intros c; set_solver).
  split; [exact H |]. apply merge_same_claim_set. exact H.
Defined.

End GraphFacts.

(* ===================================================================== *)
(** * Properties of the build passes *)
(* ===================================================================== *)

Module BuildFacts.
Import Build.

Lemma keepsTracked_bret {A} (a : A) : keepsTracked (bret a).
Proof. intros F st H. exact H. Qed.

Lemma keepsTracked_lift {A} (r : Res A) : keepsTracked (lift r).
Proof. intros F st H. exact H. Qed.

Lemma keepsTracked_bbind {A B} (m : BM A) (k : A -> BM B) :
  keepsTracked m -> (forall a, keepsTracked (k a)) -> keepsTracked (bbind m k).
Proof.
  intros Hm Hk F st H. unfold bbind.
  pose proof (Hm F st H) as H'.
  destruct (m st) as [[a|e|] st']; simpl in *; auto.
  apply Hk. exact H'.
Qed.

Lemma keepsTracked_build (E : Collaborators) (bc : BuildCall) : keepsTracked (build E bc).
Proof. intros F st H. exact H. Qed.

Lemma keepsTracked_forEach {A} (body : A -> BM unit) (l : list A) :
  (forall x, keepsTracked (body x)) -> keepsTracked (forEach body l).
Proof.
  intros Hb. induction l as [|x l IH]; simpl.
  - apply keepsTracked_bret.
  - apply keepsTracked_bbind; auto.
Qed.

Lemma createTempTry_spec (dir : string) (fuel : nat) (st : BState) :
  match createTempTry dir fuel st with
  | (ROk f, st') =>
    files st' = (File_Name f :: files st) /\ (File_Name f ∉ files st) /\
    defers st' = defers st /\ builds st' = builds st
  | (_, st') => files st' = files st /\ defers st' = defers st /\ builds st' = builds st
  end.
Proof.
  revert st. induction fuel as [|k IH]; intros st; simpl; [repeat split |].
  destruct (decide _) as [Hin|Hnin].
  - apply (IH (setTempSeq (S (tempSeq st)) st)).
  - repeat split. exact Hnin.
Qed.

(** Creating the descriptor and deferring its removal keeps it tracked. *)
Lemma keepsTracked_create_defer (E : Collaborators) (dir name : string)
    (k : File -> BM unit) :
  (forall fh, keepsTracked (k fh)) ->
  keepsTracked (let! fh := dynamicDockerfile E dir name in
                (let! _u := defer_remove fh in k fh)).
Proof.
  intros Hk F st [H1 H2]. unfold bbind at 1, dynamicDockerfile, CreateTemp.
  destruct (CreateTemp_err E (tempSeq st)) as [e|]; [split; auto |].
  pose proof (createTempTry_spec dir 10000 st) as Hs.
  destruct (createTempTry dir 10000 st) as [[fh|e|] st'];
    [| destruct Hs as [Hf [Hd _]]; split; simpl; rewrite ?Hf, ?Hd; auto
     | destruct Hs as [Hf [Hd _]]; split; simpl; rewrite ?Hf, ?Hd; auto].
  destruct Hs as [Hf [Hnew [Hd _]]].
  cbn [bbind defer_remove fst snd]. apply Hk. split; cbn [setDefers files defers].
  - intros x. rewrite Hf, Hd, !elem_of_cons, H1. tauto.
  - intros x. rewrite Hd, elem_of_cons. intros [->|Hx]; [|auto].
    intros HF. apply Hnew. apply H1. auto.
Qed.

Lemma keepsTracked_createFunction (E : Collaborators) (s : Project)
    (provider : string) (f : Function) :
  keepsTracked (createFunction E s provider f).
Proof.
  unfold createFunction. apply keepsTracked_create_defer. intros fh.
  apply keepsTracked_bbind; [apply keepsTracked_lift | intros rt].
  apply keepsTracked_bbind; [apply keepsTracked_lift | intros _].
  apply keepsTracked_build.
Qed.

Lemma keepsTracked_baseDevLoop (E : Collaborators) (s : Project)
    (fs : list Function) (imagesToBuild : list (string * string)) :
  keepsTracked (baseDevLoop E s fs imagesToBuild).
Proof.
  revert imagesToBuild. induction fs as [|f fs IH]; intros imagesToBuild; simpl.
  - apply keepsTracked_bret.
  - apply keepsTracked_bbind; [apply keepsTracked_lift | intros rt].
    destruct (hasKey _ _); [apply IH |].
    apply keepsTracked_create_defer. intros fh.
    apply keepsTracked_bbind; [apply keepsTracked_lift | intros _].
    apply keepsTracked_bbind; [apply keepsTracked_build | intros _].
    apply IH.
Qed.

Lemma foldl_Remove_elem (fs ds : list string) (x : string) :
  x ∈ foldl (fun fs nm => Remove nm fs) fs ds <-> x ∈ fs /\ x ∉ ds.
Proof.
  revert fs. induction ds as [|d ds IH]; intros fs; simpl.
  - set_solver.
  - rewrite IH. unfold Remove. rewrite list_elem_of_filter, elem_of_cons. tauto.
Qed.

(** A function whose body keeps its descriptors tracked leaves the files
    exactly as it found them, however the body ends. *)
Lemma runFunc_restores_files {A} (body : BM A) (st : BState) :
  keepsTracked body ->
  forall x, x ∈ files (snd (runFunc body st)) <-> x ∈ files st.
Proof.
  intros Hb x. unfold runFunc.
  assert (H0 : descriptorsTracked (files st) (setDefers [] st)).
  { split; simpl; [intros y; set_solver | intros y Hy; set_solver]. }
  pose proof (Hb _ _ H0) as [H1 H2].
  destruct (body (setDefers [] st)) as [r st1]. simpl in *.
  rewrite foldl_Remove_elem, H1.
  split; [intros [[Hx|Hx] Hn]; [exact Hx | contradiction] |].
  intros Hx. split; [auto |]. intros Hd. exact (H2 x Hd Hx).
Qed.

(** C8: on every exit path of [Create] and of [CreateBaseDev] (success, a
    returned error, or a panic of a collaborator), the deferred removals
    delete every descriptor the pass created: the files on disk afterwards
    are exactly those before the pass, whatever the collaborators do. *)
Theorem build_passes_remove_descriptors (E : Collaborators) (s : Project)
    (provider : string) (st : BState) :
  (forall x, x ∈ files (snd (Create E s provider st)) <-> x ∈ files st) /\
  (forall x, x ∈ files (snd (CreateBaseDev E s st)) <-> x ∈ files st).
Proof.
  split; apply runFunc_restores_files.
  - apply keepsTracked_bbind; [apply keepsTracked_lift | intros _].
    apply keepsTracked_bbind.
    + apply keepsTracked_forEach. apply keepsTracked_createFunction.
    + intros _. apply keepsTracked_forEach. intros c. apply keepsTracked_build.
  - apply keepsTracked_bbind; [apply keepsTracked_lift | intros _].
    apply keepsTracked_baseDevLoop.
Qed.

Lemma forEach_app {A} (body : A -> BM unit) (l1 l2 : list A) (st : BState) :
  forEach body (l1 ++ l2)%list st = bbind (forEach body l1) (fun _ => forEach body l2) st.
Proof.
  revert st. induction l1 as [|x l1 IH]; intros st; [reflexivity |].
  cbn [forEach app]. unfold bbind.
  destruct (body x st) as [[[]|e|] st']; [| reflexivity | reflexivity].
  specialize (IH st'). unfold bbind in IH. exact IH.
Qed.

(** C5 (counterexample): in a project with functions a and b where the
    engine build of a fails, Create returns that error and never builds b. *)
Lemma Create_aborts_batch_on_build_failure :
  fst (Create exampleCollaborators (exampleProject [fnA; fnB]) "aws" emptyBState)
    = RErr (PlainError "build failed") /\
  map bc_for (builds (snd (Create exampleCollaborators (exampleProject [fnA; fnB])
                             "aws" emptyBState)))
    = ["functions/a.ts"].
Proof. split; vm_compute; reflexivity. Qed.

(** C5 (amended): Create processes the functions in order and stops at the
    first one that fails.  When every function before [f] passed and [f]
    fails (descriptor, runtime, Dockerfile or engine build error, or a
    panic), Create ends with [f]'s outcome, in the state right after [f]'s
    failure with the descriptors removed: no later function and no container
    is processed. *)
Theorem Create_stops_at_first_failure (E : Collaborators) (s : Project)
    (provider : string) (pre post : list Function) (f : Function)
    (st st1 st2 : BState) (r : Res unit) :
  Functions s = (pre ++ f :: post)%list ->
  Discover E = ROk tt ->
  forEach (createFunction E s provider) pre (setDefers [] st) = (ROk tt, st1) ->
  createFunction E s provider f st1 = (r, st2) ->
  r <> ROk tt ->
  Create E s provider st = (r, setDefers (defers st) (runDefers st2)).
Proof.
  intros Hfs HD Hpre Hf Hr. unfold Create, runFunc.
  unfold bbind at 1. unfold lift at 1. rewrite HD.
  unfold bbind at 1. rewrite Hfs, forEach_app.
  unfold bbind at 1. rewrite Hpre. simpl.
  unfold bbind at 1. rewrite Hf.
  destruct r as [[]|e|]; [congruence | reflexivity | reflexivity].
Qed.

Lemma Create_stops_at_first_failure_witness :
  Functions (exampleProject [fnA; fnB]) = ([] ++ fnA :: [fnB])%list /\
  Discover exampleCollaborators = ROk tt /\
  Create exampleCollaborators (exampleProject [fnA; fnB]) "aws" emptyBState =
  (RErr (PlainError "build failed"),
   setDefers [] (runDefers (snd (createFunction exampleCollaborators
                                   (exampleProject [fnA; fnB]) "aws" fnA
                                   (setDefers [] emptyBState))))).
Proof.
  split; [reflexivity | split; [reflexivity |]].
  apply (Create_stops_at_first_failure exampleCollaborators (exampleProject [fnA; fnB])
           "aws" [] [fnB] fnA emptyBState (setDefers [] emptyBState));
    [reflexivity | reflexivity | reflexivity | vm_compute; reflexivity | discriminate].
Defined.

Lemma runFunc_builds {A} (body : BM A) (st : BState) :
  builds (snd (runFunc body st)) = builds (snd (body (setDefers [] st))).
Proof. unfold runFunc. destruct (body (setDefers [] st)). reflexivity. Qed.

Lemma hasKey_cons (k k' img : string) (m : list (string * string)) :
  hasKey k ((k', img) :: m) = String.eqb k' k || hasKey k m.
Proof. reflexivity. Qed.

(** The loop of CreateBaseDev only appends builds, each for a handler whose
    language was not in [imagesToBuild] yet, and never two for one language. *)
Lemma baseDevLoop_builds (E : Collaborators) (s : Project) (fs : list Function) :
  forall (m : list (string * string)) (st : BState),
  exists nb,
    builds (snd (baseDevLoop E s fs m st)) = (builds st ++ nb)%list /\
    NoDup (map (fun bc => handlerLang (bc_for bc)) nb) /\
    (forall bc, bc ∈ nb -> hasKey (handlerLang (bc_for bc)) m = false).
Proof.
  induction fs as [|f fs IH]; intros m st; simpl.
  { exists []. rewrite app_nil_r. split; [reflexivity | split; [constructor | set_solver]]. }
  unfold bbind at 1, lift at 1.
  destruct (NewRunTimeFromHandler E (Function_Handler f)) as [rt|e|];
    [| exists []; rewrite app_nil_r; split; [reflexivity | split; [constructor | set_solver]]
     | exists []; rewrite app_nil_r; split; [reflexivity | split; [constructor | set_solver]]].
  destruct (hasKey (handlerLang (Function_Handler f)) m) eqn:Hk; [apply IH |].
  unfold bbind at 1, dynamicDockerfile, CreateTemp.
  destruct (CreateTemp_err E (tempSeq st)) as [e|].
  { exists []. rewrite app_nil_r. split; [reflexivity | split; [constructor | set_solver]]. }
  pose proof (createTempTry_spec (Project_Dir s) 10000 st) as Hs.
  destruct (createTempTry (Project_Dir s) 10000 st) as [[fh|e|] st'];
    [| exists []; rewrite app_nil_r; split; [apply Hs | split; [constructor | set_solver]]
     | exists []; rewrite app_nil_r; split; [apply Hs | split; [constructor | set_solver]]].
  destruct Hs as [_ [_ [_ Hb]]].
  cbn [bbind defer_remove lift].
  destruct (FunctionDockerfileForCodeAsConfig E rt) as [[]|e|];
    [| exists []; rewrite app_nil_r; split; [apply Hb | split; [constructor | set_solver]]
     | exists []; rewrite app_nil_r; split; [apply Hb | split; [constructor | set_solver]]].
  set (bc := {| bc_dockerfile := File_base fh; bc_context := Project_Dir s;
                bc_tag := DevImageName E rt; bc_args := [];
                bc_for := Function_Handler f |}).
  unfold build at 1. cbn [fst snd].
  assert (Hbc : bc_for bc = Function_Handler f) by reflexivity.
  destruct (EngineBuild E _ _ _ _) as [[]|e|]; cbn [bbind].
  - match goal with
    | |- context [baseDevLoop E s fs ?m' ?st''] =>
      destruct (IH m' st'') as (nb & Hnb & Hnd & Hfresh)
    end.
    exists (bc :: nb). split; [| split].
    + rewrite Hnb. simpl. rewrite Hb, <- app_assoc. reflexivity.
    + simpl. constructor; [| exact Hnd].
      intros Hin. apply list_elem_of_fmap in Hin as (bc' & Heq & Hin').
      specialize (Hfresh bc' Hin'). rewrite hasKey_cons, <- Heq in Hfresh.
      rewrite ?Hbc, String.eqb_refl in Hfresh. discriminate.
    + intros bc' Hin'. apply elem_of_cons in Hin' as [->|Hin']; [rewrite Hbc; exact Hk |].
      specialize (Hfresh bc' Hin'). rewrite hasKey_cons in Hfresh.
      apply orb_false_iff in Hfresh. apply Hfresh.
  - exists [bc]. simpl. rewrite Hb. split; [reflexivity | split].
    + constructor; [set_solver | constructor].
    + intros bc' Hin'. apply list_elem_of_singleton in Hin'. subst bc'. rewrite Hbc. exact Hk.
  - exists [bc]. simpl. rewrite Hb. split; [reflexivity | split].
    + constructor; [set_solver | constructor].
    + intros bc' Hin'. apply list_elem_of_singleton in Hin'. subst bc'. rewrite Hbc. exact Hk.
Qed.

(** C9: CreateBaseDev builds at most one dev image per handler language
    (the extension without its dot): the engine builds it requests carry
    pairwise distinct languages, so once a language is built no later
    handler of that language is built again. *)
Theorem CreateBaseDev_one_build_per_language (E : Collaborators) (s : Project)
    (st : BState) :
  exists newBuilds,
    builds (snd (CreateBaseDev E s st)) = (builds st ++ newBuilds)%list /\
    NoDup (map (fun bc => handlerLang (bc_for bc)) newBuilds).
Proof.
  unfold CreateBaseDev. rewrite runFunc_builds.
  unfold bbind at 1, lift at 1.
  destruct (Discover E) as [[]|e|];
    [| exists []; rewrite app_nil_r; split; [reflexivity | constructor]
     | exists []; rewrite app_nil_r; split; [reflexivity | constructor]].
  destruct (baseDevLoop_builds E s (Functions s) [] (setDefers [] st)) as (nb & H1 & H2 & _).
  exists nb. split; [exact H1 | exact H2].
Qed.

End BuildFacts.

(* ===================================================================== *)
(** * Properties of the table output *)
(* ===================================================================== *)

Module OutputFacts.
Import Output.

Lemma keyLess_spec (a b : Value) :
  keyLess a b = true <-> String.compare (Value_String a) (Value_String b) = Lt.
Proof. unfold keyLess. destruct (String.compare _ _); split; congruence. Qed.

Lemma keyLess_trans (a b c : Value) :
  keyLess a b = true -> keyLess b c = true -> keyLess a c = true.
Proof.
  rewrite !keyLess_spec. intros H1 H2.
  apply OrderedTypeEx.String_as_OT.cmp_lt.
  eapply OrderedTypeEx.String_as_OT.lt_trans;
    apply OrderedTypeEx.String_as_OT.cmp_lt; eassumption.
Qed.

Lemma keyLess_irrefl (a : Value) : keyLess a a = false.
Proof.
  destruct (keyLess a a) eqn:H; [| reflexivity].
  apply keyLess_spec, OrderedTypeEx.String_as_OT.cmp_lt in H.
  exfalso. exact (OrderedTypeEx.String_as_OT.lt_not_eq _ _ H eq_refl).
Qed.

Lemma keyLess_total (a b : Value) :
  isStringKey a -> isStringKey b -> a <> b ->
  keyLess a b = true \/ keyLess b a = true.
Proof.
  intros Ha Hb Hne.
  destruct a as [| |s| | | | | | | |]; try (simpl in Ha; contradiction).
  destruct b as [| |t| | | | | | | |]; try (simpl in Hb; contradiction).
  rewrite !keyLess_spec. simpl.
  destruct (String.compare s t) eqn:E.
  - apply String.compare_eq_iff in E. subst. congruence.
  - left. reflexivity.
  - right. rewrite String.compare_antisym, E. reflexivity.
Qed.

Lemma insertStable_perm (x : Value * Value) (l : list (Value * Value)) :
  insertStable x l ≡ₚ x :: l.
Proof.
  induction l as [|y l IH]; simpl; [reflexivity |].
  destruct (keyLess (fst x) (fst y)); [reflexivity |].
  rewrite IH. apply perm_swap.
Qed.

Lemma sortStable_perm_acc (acc l : list (Value * Value)) :
  foldl (fun acc x => insertStable x acc) acc l ≡ₚ acc ++ l.
Proof.
  revert acc. induction l as [|x l IH]; intros acc; simpl.
  - rewrite app_nil_r. reflexivity.
  - rewrite IH, insertStable_perm. simpl. apply Permutation_middle.
Qed.

Lemma sortStable_perm (l : list (Value * Value)) : sortStable l ≡ₚ l.
Proof. unfold sortStable. rewrite sortStable_perm_acc. reflexivity. Qed.

Lemma insertStable_sorted (x : Value * Value) (l : list (Value * Value)) :
  StronglySorted entryLess l -> isStringKey (fst x) ->
  Forall (fun e => isStringKey (fst e) /\ fst e <> fst x) l ->
  StronglySorted entryLess (insertStable x l).
Proof.
  intros Hs Hx Hl. induction l as [|y l IH]; simpl.
  { constructor; constructor. }
  apply StronglySorted_inv in Hs as [Hsl Hyl].
  inversion Hl as [|? ? [Hy Hyx] Hl']; subst.
  destruct (keyLess (fst x) (fst y)) eqn:Hxy.
  - constructor; [constructor; assumption |].
    constructor; [exact Hxy |].
    eapply Forall_impl; [exact Hyl |]. intros e He. exact (keyLess_trans _ _ _ Hxy He).
  - constructor; [apply IH; assumption |].
    rewrite insertStable_perm. constructor; [| exact Hyl].
    destruct (keyLess_total (fst x) (fst y) Hx Hy (not_eq_sym Hyx)) as [H|H];
      [congruence | exact H].
Qed.

Lemma distinctStringKeys_perm (l1 l2 : list (Value * Value)) :
  l1 ≡ₚ l2 -> distinctStringKeys l1 -> distinctStringKeys l2.
Proof.
  intros Hp [Hf Hn]. split.
  - rewrite <- Hp. exact Hf.
  - rewrite <- (Permutation_map fst Hp). exact Hn.
Qed.

Lemma sortStable_sorted_acc (acc l : list (Value * Value)) :
  StronglySorted entryLess acc -> distinctStringKeys (acc ++ l) ->
  StronglySorted entryLess (foldl (fun acc x => insertStable x acc) acc l).
Proof.
  revert acc. induction l as [|x l IH]; intros acc Hs Hd; simpl; [exact Hs |].
  destruct Hd as [Hf Hn].
  apply IH.
  - apply insertStable_sorted; [exact Hs | |].
    + apply Forall_app in Hf as [_ Hf]. inversion Hf; assumption.
    + rewrite map_app in Hn. simpl in Hn.
      apply NoDup_app in Hn as (_ & Hdis & _).
      apply Forall_app in Hf as [Hfa _].
      apply Forall_forall. intros e He. split; [rewrite Forall_forall in Hfa; auto |].
      intros Heq. apply (Hdis (fst x)); [| left].
      rewrite <- Heq. apply list_elem_of_fmap. exists e. split; [reflexivity | exact He].
  - apply (distinctStringKeys_perm (acc ++ x :: l)); [| split; assumption].
    rewrite insertStable_perm. simpl. symmetry. apply Permutation_middle.
Qed.

Lemma sortStable_sorted (l : list (Value * Value)) :
  distinctStringKeys l -> StronglySorted entryLess (sortStable l).
Proof. intros Hd. apply sortStable_sorted_acc; [constructor | exact Hd]. Qed.

(** Two lists strictly sorted by [entryLess] with the same elements are
    equal. *)
Lemma strongly_sorted_perm_unique (l1 l2 : list (Value * Value)) :
  StronglySorted entryLess l1 -> StronglySorted entryLess l2 -> l1 ≡ₚ l2 -> l1 = l2.
Proof.
  revert l2. induction l1 as [|a l1 IH]; intros l2 H1 H2 Hp.
  { symmetry. apply Permutation_nil. exact Hp. }
  destruct l2 as [|b l2]; [apply Permutation_sym, Permutation_nil in Hp; discriminate |].
  apply StronglySorted_inv in H1 as [H1 Ha]. apply StronglySorted_inv in H2 as [H2 Hb].
  assert (a = b) as <-.
  { assert (Hin_a : In a (b :: l2)) by (eapply Permutation_in; [exact Hp | left; reflexivity]).
    assert (Hin_b : In b (a :: l1))
      by (eapply Permutation_in; [symmetry; exact Hp | left; reflexivity]).
    destruct Hin_a as [->|Hin_a]; [reflexivity |].
    destruct Hin_b as [->|Hin_b]; [reflexivity | exfalso].
    rewrite Forall_forall in Ha, Hb.
    apply list_elem_of_In in Hin_a, Hin_b.
    pose proof (keyLess_trans _ _ _ (Ha b Hin_b) (Hb a Hin_a)) as H.
    rewrite keyLess_irrefl in H. discriminate. }
  f_equal. apply IH; [exact H1 | exact H2 |].
  eapply Permutation_cons_inv. exact Hp.
Qed.

Lemma omap_mapRow_length (names : list string) (l : list (Value * Value)) :
  List.length (omap (mapRow names) l) = List.length (List.filter supportedEntry l).
Proof.
  induction l as [|[k v] l IH]; [reflexivity |].
  destruct v; cbn [omap list_omap mapRow List.filter supportedEntry] in *; cbn; rewrite ?IH; reflexivity.
Qed.

Lemma filter_supported_perm (l1 l2 : list (Value * Value)) :
  l1 ≡ₚ l2 ->
  List.length (List.filter supportedEntry l1) = List.length (List.filter supportedEntry l2).
Proof.
  induction 1 as [|x l1 l2 _ IH|x y l|l1 l2 l3 _ IH1 _ IH2]; simpl.
  - reflexivity.
  - destruct (supportedEntry x); simpl; rewrite IH; reflexivity.
  - destruct (supportedEntry x), (supportedEntry y); reflexivity.
  - congruence.
Qed.

Lemma mapRow_head (names : list string) (e : Value * Value) (r : list Value) :
  mapRow names e = Some r -> exists rest, r = fst e :: rest.
Proof.
  destruct e as [k v]. destruct v; simpl; intros H; inversion H; eauto.
Qed.

Lemma omap_cons_eq {A B} (f : A -> option B) (x : A) (l : list A) :
  omap f (x :: l) = match f x with Some y => y :: omap f l | None => omap f l end.
Proof. reflexivity. Qed.

Lemma filter_supported_perm_list (l1 l2 : list (Value * Value)) :
  l1 ≡ₚ l2 -> List.filter supportedEntry l1 ≡ₚ List.filter supportedEntry l2.
Proof.
  induction 1 as [|x l1 l2 _ IH|x y l|l1 l2 l3 _ IH1 _ IH2]; simpl.
  - reflexivity.
  - destruct (supportedEntry x); [apply perm_skip |]; exact IH.
  - destruct (supportedEntry x), (supportedEntry y); try reflexivity. apply perm_swap.
  - etransitivity; eauto.
Qed.

Lemma omap_mapRow_heads (names : list string) (l : list (Value * Value)) :
  map (fun r => head r) (omap (mapRow names) l)
  = map (fun e => Some (fst e)) (List.filter supportedEntry l).
Proof.
  induction l as [|[k v] l IH]; [reflexivity |].
  rewrite omap_cons_eq. destruct v; simpl; rewrite ?IH; reflexivity.
Qed.

Lemma omap_mapRow_sorted (names : list string) (l : list (Value * Value)) :
  StronglySorted entryLess l -> StronglySorted rowKeyLess (omap (mapRow names) l).
Proof.
  induction l as [|e l IH]; intros Hs; [constructor |].
  rewrite omap_cons_eq.
  apply StronglySorted_inv in Hs as [Hs He].
  destruct (mapRow names e) as [r|] eqn:Hr; [| apply IH; exact Hs].
  constructor; [apply IH; exact Hs |].
  apply Forall_forall. intros r' Hr'.
  apply list_elem_of_omap in Hr' as (e' & He' & Hr'').
  destruct (mapRow_head _ _ _ Hr) as (rest & ->).
  destruct (mapRow_head _ _ _ Hr'') as (rest' & ->).
  rewrite Forall_forall in He. apply He. exact He'.
Qed.

(** C10 (counterexample): printMap neither emits one row per key nor
    orders every map.  A map whose only key "a" holds a slice gets no row;
    and for int keys [Value.String()] is the same "<int Value>" for every
    key, so the stable sort keeps the iteration order and the same map
    {1: "x", 2: "y"} printed in its two iteration orders gives two different
    tables. *)
Lemma printMap_rows_not_per_key_nor_ordered :
  List.length (snd (printMap TSlice [(VString "a", VSlice [VInt 1])])) = 0 /\
  printMap TSimple [(VInt 1, VString "x"); (VInt 2, VString "y")] <>
  printMap TSimple [(VInt 2, VString "y"); (VInt 1, VString "x")].
Proof.
  split; [reflexivity |].
  vm_compute. intros H. inversion H.
Qed.

(** C10 (amended): for a map with string keys, the rows printMap emits do
    not depend on the map's iteration order, they are in strictly ascending
    key order, and there is exactly one row per key whose value is a struct
    or of a simple kind, headed by that key: the rows' first cells are, up
    to order, exactly those keys (keys holding a slice, array, map, func,
    chan or interface value get no row). *)
Theorem printMap_string_keys_sorted_deterministic (elem : Ty)
    (it1 it2 : list (Value * Value)) :
  it1 ≡ₚ it2 ->
  distinctStringKeys it1 ->
  printMap elem it1 = printMap elem it2 /\
  StronglySorted rowKeyLess (snd (printMap elem it1)) /\
  List.length (snd (printMap elem it1)) = List.length (List.filter supportedEntry it1) /\
  map (fun r => head r) (snd (printMap elem it1))
    ≡ₚ map (fun e => Some (fst e)) (List.filter supportedEntry it1).
Proof.
  intros Hp Hd.
  assert (Hd2 : distinctStringKeys it2) by (eapply distinctStringKeys_perm; eauto).
  split; [| split; [| split]].
  - unfold printMap. do 2 f_equal.
    apply strongly_sorted_perm_unique; [apply sortStable_sorted; assumption
                                       | apply sortStable_sorted; assumption |].
    rewrite !sortStable_perm. exact Hp.
  - apply omap_mapRow_sorted, sortStable_sorted, Hd.
  - simpl. rewrite omap_mapRow_length. apply filter_supported_perm, sortStable_perm.
  - simpl. rewrite omap_mapRow_heads. apply Permutation_map, filter_supported_perm_list,
      sortStable_perm.
Qed.

Lemma printMap_string_keys_sorted_deterministic_witness :
  [(VString "b", VInt 2); (VString "a", VInt 1)] ≡ₚ
    [(VString "a", VInt 1); (VString "b", VInt 2)] /\
  distinctStringKeys [(VString "b", VInt 2); (VString "a", VInt 1)] /\
  (printMap TSimple [(VString "b", VInt 2); (VString "a", VInt 1)] =
     printMap TSimple [(VString "a", VInt 1); (VString "b", VInt 2)] /\
   StronglySorted rowKeyLess
     (snd (printMap TSimple [(VString "b", VInt 2); (VString "a", VInt 1)])) /\
   List.length (snd (printMap TSimple [(VString "b", VInt 2); (VString "a", VInt 1)])) =
     List.length (List.filter supportedEntry [(VString "b", VInt 2); (VString "a", VInt 1)]) /\
   map (fun r => head r) (snd (printMap TSimple [(VString "b", VInt 2); (VString "a", VInt 1)]))
     ≡ₚ map (fun e => Some (fst e))
          (List.filter supportedEntry [(VString "b", VInt 2); (VString "a", VInt 1)])).
Proof.
  assert (Hp : [(VString "b", VInt 2); (VString "a", VInt 1)] ≡ₚ
               [(VString "a", VInt 1); (VString "b", VInt 2)]) by apply perm_swap.
  assert (Hd : distinctStringKeys [(VString "b", VInt 2); (VString "a", VInt 1)]).
  { split.
    - repeat constructor.
    - simpl. constructor; [| constructor; [intros H; inversion H | constructor]].
      intros H. apply list_elem_of_singleton in H. discriminate. }
  split; [exact Hp | split; [exact Hd |]].
  apply printMap_string_keys_sorted_deterministic; assumption.
Defined.

End OutputFacts.

(* ===================================================================== *)
(** * More properties of the code-as-config server *)
(* ===================================================================== *)

Module ServerMore.
Import CodeConfig.

(** TriggerStream on a stream the client closed before sending anything:
    [Recv] yields [io.EOF] and the call fails with an [Internal] status
    naming it; nothing is recorded and nothing is sent. *)
Theorem TriggerStream_empty_stream (d : FunctionDependencies) (sent : list ServerMessage) :
  TriggerStream (mkSession d [] sent) =
  (Some (StatusError Internal "error reading message from stream: EOF"), mkSession d [] sent).
Proof. reflexivity. Qed.

(** Whatever the stream holds, TriggerStream reads at most its first
    message and never sends anything. *)
Theorem TriggerStream_reads_one_sends_none (s : Session) :
  inbox (stream (snd (TriggerStream s))) = tail (inbox (stream s)) /\
  outbox (stream (snd (TriggerStream s))) = outbox (stream s).
Proof.
  destruct s as [d [[|cm rest] out]]; [split; reflexivity |].
  unfold TriggerStream, bind, Recv. cbn [inbox stream].
  destruct (GetInitRequest cm) as [ir|]; [| split; reflexivity].
  destruct (Worker ir); unfold onFunction, ret; cbn;
    repeat match goal with
           | |- context [let '(_, _) := ?e in _] => destruct e
           end; split; reflexivity.
Qed.

End ServerMore.

(* ===================================================================== *)
(** * More properties of the build passes *)
(* ===================================================================== *)

Module BuildMore.
Import Build BuildList.

Lemma omap_app_list {A B} (f : A -> option B) (l1 l2 : list A) :
  omap f (l1 ++ l2)%list = (omap f l1 ++ omap f l2)%list.
Proof.
  induction l1 as [|x l1 IH]; [reflexivity |].
  rewrite <- app_comm_cons, !OutputFacts.omap_cons_eq, IH. destruct (f x); reflexivity.
Qed.

Lemma createTempTry_ok (dir : string) (fuel : nat) (st st' : BState) (f : File) :
  createTempTry dir fuel st = (ROk f, st') ->
  File_dir f = dir /\ exists n, File_base f = tempBase n.
Proof.
  revert st. induction fuel as [|k IH]; intros st H; simpl in H; [discriminate |].
  destruct (decide _); [exact (IH _ H) |].
  inversion H; subst. split; [reflexivity | eexists; reflexivity].
Qed.

Lemma dynamicDockerfile_builds (E : Collaborators) (dir name : string)
    (st st' : BState) (f : File) :
  dynamicDockerfile E dir name st = (ROk f, st') -> builds st' = builds st.
Proof.
  unfold dynamicDockerfile, CreateTemp. intros H.
  destruct (CreateTemp_err E (tempSeq st)); [discriminate |].
  pose proof (BuildFacts.createTempTry_spec dir 10000 st) as Hs. rewrite H in Hs.
  destruct Hs as (_ & _ & _ & Hbs). exact Hbs.
Qed.

(** [dynamicDockerfile] never reuses a file: for a non-empty directory not
    ending in a separator (the project directory the callers pass), on
    success the descriptor is in that directory, is named
    [nitric.dynamic.Dockerfile.<n>], was not on disk before and is on disk
    now; no engine build happens. *)
Theorem dynamicDockerfile_fresh (E : Collaborators) (dir name : string)
    (st st' : BState) (f : File) :
  joinableDir dir = true ->
  dynamicDockerfile E dir name st = (ROk f, st') ->
  File_dir f = dir /\ (exists n, File_base f = tempBase n) /\
  (File_Name f ∉ files st) /\ files st' = (File_Name f :: files st) /\
  builds st' = builds st.
Proof.
  unfold dynamicDockerfile, CreateTemp. intros _ H.
  destruct (CreateTemp_err E (tempSeq st)); [discriminate |].
  pose proof (BuildFacts.createTempTry_spec dir 10000 st) as Hs. rewrite H in Hs.
  destruct (createTempTry_ok _ _ _ _ _ H) as [Hd Hb].
  destruct Hs as (Hf & Hn & _ & Hbs). auto 6.
Qed.

Lemma dynamicDockerfile_fresh_witness :
  joinableDir "/p" = true /\
  dynamicDockerfile exampleCollaborators "/p" "a" emptyBState =
    (ROk {| File_dir := "/p"; File_base := tempBase 0 |},
     snd (dynamicDockerfile exampleCollaborators "/p" "a" emptyBState)) /\
  (File_dir {| File_dir := "/p"; File_base := tempBase 0 |} = "/p" /\
   (exists n, File_base {| File_dir := "/p"; File_base := tempBase 0 |} = tempBase n) /\
   (File_Name {| File_dir := "/p"; File_base := tempBase 0 |} ∉ files emptyBState) /\
   files (snd (dynamicDockerfile exampleCollaborators "/p" "a" emptyBState)) =
     (File_Name {| File_dir := "/p"; File_base := tempBase 0 |} :: files emptyBState) /\
   builds (snd (dynamicDockerfile exampleCollaborators "/p" "a" emptyBState)) =
     builds emptyBState).
Proof.
  split; [reflexivity |].
  split; [vm_compute; reflexivity |].
  apply (dynamicDockerfile_fresh exampleCollaborators "/p" "a" emptyBState);
    [reflexivity | vm_compute; reflexivity].
Defined.

Lemma forEach_ok_builds {A} (body : A -> BM unit) (P : A -> BuildCall -> Prop) :
  (forall x st st', body x st = (ROk tt, st') ->
     exists bc, builds st' = (builds st ++ [bc])%list /\ P x bc) ->
  forall l st st', forEach body l st = (ROk tt, st') ->
  exists nb, builds st' = (builds st ++ nb)%list /\ Forall2 P l nb.
Proof.
  intros Hb l. induction l as [|x l IH]; intros st st' H; cbn [forEach] in H.
  - inversion H; subst. exists []. rewrite app_nil_r. split; [reflexivity | constructor].
  - unfold bbind in H. destruct (body x st) as [[[]|e|] st1] eqn:Hx; try discriminate.
    destruct (Hb x st st1 Hx) as (bc & H1 & HP).
    destruct (IH st1 st' H) as (nb & H2 & HF).
    exists (bc :: nb). split; [rewrite H2, H1, <- app_assoc; reflexivity | constructor; auto].
Qed.

Lemma createFunction_ok (E : Collaborators) (s : Project) (p : string) (f : Function)
    (st st' : BState) :
  createFunction E s p f st = (ROk tt, st') ->
  exists bc, builds st' = (builds st ++ [bc])%list /\
    (bc_tag bc = ImageTagName E f s p /\ bc_context bc = Project_Dir s /\
     bc_args bc = [("PROVIDER", p)] /\ bc_for bc = Function_Handler f).
Proof.
  unfold createFunction. unfold bbind at 1.
  destruct (dynamicDockerfile E _ _ st) as [[fh|e|] st1] eqn:Hd; try discriminate.
  pose proof (dynamicDockerfile_builds _ _ _ _ _ _ Hd) as Hb1.
  cbn [bbind defer_remove lift].
  destruct (NewRunTimeFromHandler E (Function_Handler f)) as [rt|e|]; try discriminate.
  destruct (FunctionDockerfile E rt _ _ _) as [[]|e|]; try discriminate.
  unfold build. intros H. inversion H; subst. clear H.
  eexists. split; [cbn [builds setBuilds setDefers]; rewrite Hb1; reflexivity |].
  repeat split.
Qed.

Lemma createContainer_ok (E : Collaborators) (s : Project) (p : string) (c : Container)
    (st st' : BState) :
  createContainer E s p c st = (ROk tt, st') ->
  exists bc, builds st' = (builds st ++ [bc])%list /\
    (bc_tag bc = Container_ImageTagName E c s p /\ bc_context bc = Project_Dir s /\
     bc_args bc = [("PROVIDER", p)]).
Proof.
  unfold createContainer, build. intros H. inversion H; subst.
  eexists. split; [reflexivity | repeat split].
Qed.

Lemma runFunc_ok {A} (body : BM A) (st st' : BState) (a : A) :
  runFunc body st = (ROk a, st') ->
  exists st1, body (setDefers [] st) = (ROk a, st1) /\ builds st' = builds st1.
Proof.
  unfold runFunc. destruct (body (setDefers [] st)) as [r st1]. intros H.
  inversion H; subst. eexists. split; reflexivity.
Qed.

(** When [Create] succeeds it has asked the engine for exactly one build per
    function, in project order, then one per container: each tagged by the
    project's [ImageTagName], with the project directory as context and the
    single build argument [PROVIDER=provider]. *)
Theorem Create_success_builds (E : Collaborators) (s : Project) (p : string)
    (st st' : BState) :
  Create E s p st = (ROk tt, st') ->
  exists nbF nbC,
    builds st' = (builds st ++ nbF ++ nbC)%list /\
    Forall2 (fun f bc => bc_tag bc = ImageTagName E f s p /\ bc_context bc = Project_Dir s /\
                         bc_args bc = [("PROVIDER", p)] /\ bc_for bc = Function_Handler f)
            (Functions s) nbF /\
    Forall2 (fun c bc => bc_tag bc = Container_ImageTagName E c s p /\
                         bc_context bc = Project_Dir s /\ bc_args bc = [("PROVIDER", p)])
            (Containers s) nbC.
Proof.
  unfold Create. intros H. apply runFunc_ok in H as (st1 & H & ->).
  unfold bbind at 1, lift at 1 in H. destruct (Discover E) as [[]|e|]; try discriminate.
  unfold bbind at 1 in H.
  destruct (forEach (createFunction E s p) (Functions s) (setDefers [] st)) as [[[]|e|] st2] eqn:HF;
    try discriminate.
  destruct (forEach_ok_builds _ _ (createFunction_ok E s p) _ _ _ HF) as (nbF & H1 & HF2).
  destruct (forEach_ok_builds _ _ (createContainer_ok E s p) _ _ _ H) as (nbC & H2 & HC2).
  exists nbF, nbC. split; [| split; assumption].
  rewrite H2, H1, <- app_assoc. reflexivity.
Qed.

Lemma Create_success_builds_witness :
  Create exampleCollaborators (exampleProject [fnB; fnC]) "aws" emptyBState =
    (ROk tt, snd (Create exampleCollaborators (exampleProject [fnB; fnC]) "aws" emptyBState)) /\
  exists nbF nbC,
    builds (snd (Create exampleCollaborators (exampleProject [fnB; fnC]) "aws" emptyBState)) =
      (builds emptyBState ++ nbF ++ nbC)%list /\
    Forall2 (fun f bc => bc_tag bc = ImageTagName exampleCollaborators f (exampleProject [fnB; fnC]) "aws" /\
                         bc_context bc = Project_Dir (exampleProject [fnB; fnC]) /\
                         bc_args bc = [("PROVIDER", "aws")] /\ bc_for bc = Function_Handler f)
            (Functions (exampleProject [fnB; fnC])) nbF /\
    Forall2 (fun c bc => bc_tag bc = Container_ImageTagName exampleCollaborators c (exampleProject [fnB; fnC]) "aws" /\
                         bc_context bc = Project_Dir (exampleProject [fnB; fnC]) /\
                         bc_args bc = [("PROVIDER", "aws")])
            (Containers (exampleProject [fnB; fnC])) nbC.
Proof.
  split; [vm_compute; reflexivity |].
  apply (Create_success_builds exampleCollaborators (exampleProject [fnB; fnC]) "aws" emptyBState).
  vm_compute. reflexivity.
Defined.

Lemma hasKey_spec (k : string) (m : list (string * string)) :
  hasKey k m = bool_decide (k ∈ map fst m).
Proof.
  induction m as [|[k' v] m IH]; [reflexivity |].
  rewrite BuildFacts.hasKey_cons, IH. cbn [map fst].
  destruct (String.eqb_spec k' k) as [->|Hne].
  - simpl. symmetry. apply bool_decide_eq_true_2. left.
  - simpl. apply bool_decide_ext. rewrite elem_of_cons. split; [auto | intros [->|H]; [congruence | exact H]].
Qed.

Lemma baseDevLoop_ok (E : Collaborators) (s : Project) (fs : list Function) :
  forall (m : list (string * string)) (st st' : BState),
  baseDevLoop E s fs m st = (ROk tt, st') ->
  Forall (fun f => exists rt, NewRunTimeFromHandler E (Function_Handler f) = ROk rt) fs /\
  exists nb, builds st' = (builds st ++ nb)%list /\
    Forall2 (fun f bc => bc_for bc = Function_Handler f /\ bc_context bc = Project_Dir s /\
                         bc_args bc = [] /\
                         exists rt, NewRunTimeFromHandler E (Function_Handler f) = ROk rt /\
                                    bc_tag bc = DevImageName E rt)
            (firstPerLang (map fst m) fs) nb.
Proof.
  induction fs as [|f fs IH]; intros m st st' H; cbn [baseDevLoop] in H.
  { inversion H; subst. split; [constructor |]. exists []. rewrite app_nil_r.
    split; [reflexivity | constructor]. }
  unfold bbind at 1, lift at 1 in H.
  destruct (NewRunTimeFromHandler E (Function_Handler f)) as [rt|e|] eqn:Hrt; try discriminate.
  cbn [firstPerLang]. rewrite <- hasKey_spec.
  destruct (hasKey (handlerLang (Function_Handler f)) m) eqn:Hk.
  { destruct (IH m st st' H) as [Hall Hnb]. split; [constructor; eauto | exact Hnb]. }
  unfold bbind at 1 in H.
  destruct (dynamicDockerfile E _ _ st) as [[fh|e|] st1] eqn:Hd; try discriminate.
  pose proof (dynamicDockerfile_builds _ _ _ _ _ _ Hd) as Hb1.
  cbn [bbind defer_remove lift] in H.
  destruct (FunctionDockerfileForCodeAsConfig E rt) as [[]|e|]; try discriminate.
  unfold build at 1 in H. cbn [fst snd] in H.
  destruct (EngineBuild E _ _ _ _) as [[]|e|]; cbn [bbind] in H; try discriminate.
  destruct (IH _ _ _ H) as [Hall (nb & Hnb & HF)].
  split; [constructor; eauto |].
  eexists (_ :: nb). split.
  - rewrite Hnb. cbn [builds setBuilds setDefers]. rewrite Hb1, <- app_assoc. reflexivity.
  - constructor; [| exact HF]. cbn. repeat split. eauto.
Qed.

(** When [CreateBaseDev] succeeds, every handler has a runtime, and the dev
    images built are exactly one per handler language: for the first handler
    of each language, in project order, one build tagged with its runtime's
    [DevImageName], with the project directory as context and no build
    arguments. *)
Theorem CreateBaseDev_success_builds (E : Collaborators) (s : Project) (st st' : BState) :
  CreateBaseDev E s st = (ROk tt, st') ->
  Forall (fun f => exists rt, NewRunTimeFromHandler E (Function_Handler f) = ROk rt)
         (Functions s) /\
  exists nb, builds st' = (builds st ++ nb)%list /\
    Forall2 (fun f bc => bc_for bc = Function_Handler f /\ bc_context bc = Project_Dir s /\
                         bc_args bc = [] /\
                         exists rt, NewRunTimeFromHandler E (Function_Handler f) = ROk rt /\
                                    bc_tag bc = DevImageName E rt)
            (firstPerLang [] (Functions s)) nb.
Proof.
  unfold CreateBaseDev. intros H. apply runFunc_ok in H as (st1 & H & ->).
  unfold bbind at 1, lift at 1 in H. destruct (Discover E) as [[]|e|]; try discriminate.
  exact (baseDevLoop_ok E s (Functions s) [] _ _ H).
Qed.

Lemma CreateBaseDev_success_builds_witness :
  CreateBaseDev exampleCollaborators (exampleProject [fnA; fnB; fnC]) emptyBState =
    (ROk tt, snd (CreateBaseDev exampleCollaborators (exampleProject [fnA; fnB; fnC]) emptyBState)) /\
  (Forall (fun f => exists rt, NewRunTimeFromHandler exampleCollaborators (Function_Handler f) = ROk rt)
         (Functions (exampleProject [fnA; fnB; fnC])) /\
   exists nb, builds (snd (CreateBaseDev exampleCollaborators (exampleProject [fnA; fnB; fnC]) emptyBState)) =
                (builds emptyBState ++ nb)%list /\
    Forall2 (fun f bc => bc_for bc = Function_Handler f /\
                         bc_context bc = Project_Dir (exampleProject [fnA; fnB; fnC]) /\
                         bc_args bc = [] /\
                         exists rt, NewRunTimeFromHandler exampleCollaborators (Function_Handler f) = ROk rt /\
                                    bc_tag bc = DevImageName exampleCollaborators rt)
            (firstPerLang [] (Functions (exampleProject [fnA; fnB; fnC]))) nb).
Proof.
  split; [vm_compute; reflexivity |].
  apply (CreateBaseDev_success_builds exampleCollaborators (exampleProject [fnA; fnB; fnC]) emptyBState).
  vm_compute. reflexivity.
Defined.

Lemma listLoop_ok (Image : Type) (LI : string -> string -> Res (list Image))
    (p : string) (ns : list string) :
  forall (imgs : list Image) (pr : list error),
  (forall n, n ∈ ns -> LI p n <> RPanic) ->
  listLoop Image LI p ns imgs pr =
  (ROk (imgs ++ List.concat (map (lookupImages Image LI p) ns))%list,
   (pr ++ omap (lookupError Image LI p) ns)%list).
Proof.
  induction ns as [|n ns IH]; intros imgs pr Hp; cbn [listLoop].
  { rewrite !app_nil_r. reflexivity. }
  assert (Hp' : forall n', n' ∈ ns -> LI p n' <> RPanic) by (intros; apply Hp; right; auto).
  rewrite OutputFacts.omap_cons_eq. cbn [map List.concat].
  assert (Hi : lookupImages Image LI p n = match LI p n with ROk i => i | _ => [] end)
    by reflexivity.
  assert (He : lookupError Image LI p n = match LI p n with RErr e => Some e | _ => None end)
    by reflexivity.
  rewrite Hi, He.
  destruct (LI p n) as [imgs'|e|] eqn:Hn.
  - rewrite IH by exact Hp'. rewrite <- !app_assoc. reflexivity.
  - rewrite IH by exact Hp'. rewrite <- !app_assoc. reflexivity.
  - exfalso. apply (Hp n); [left | exact Hn].
Qed.

(** Once the engine is discovered, [List] never fails because of a lookup:
    unless the engine panics, it returns the images of the successful
    lookups, functions first and then containers, each in project order, and
    prints exactly the errors of the failed ones, in the same order. *)
Theorem List_collects_and_skips (Image : Type) (Discover : Res unit)
    (LI : string -> string -> Res (list Image)) (s : Project) :
  Discover = ROk tt ->
  (forall n, n ∈ listedNames s -> LI (Project_Name s) n <> RPanic) ->
  List Image Discover LI s =
  (ROk (List.concat (map (lookupImages Image LI (Project_Name s)) (listedNames s))),
   omap (lookupError Image LI (Project_Name s)) (listedNames s)).
Proof.
  intros HD Hp. unfold List. rewrite HD.
  unfold listedNames in *.
  rewrite listLoop_ok by (intros n Hn; apply Hp; apply elem_of_app; left; exact Hn).
  rewrite listLoop_ok by (intros n Hn; apply Hp; apply elem_of_app; right; exact Hn).
  rewrite map_app, concat_app, omap_app_list. reflexivity.
Qed.

Lemma List_collects_and_skips_witness :
  (ROk tt : Res unit) = ROk tt /\
  (forall n, n ∈ listedNames (exampleProject [fnA; fnB]) ->
     (fun _ n => if String.eqb n "a" then RErr (PlainError "no images") else ROk [n])
       (Project_Name (exampleProject [fnA; fnB])) n <> RPanic) /\
  List string (ROk tt)
    (fun _ n => if String.eqb n "a" then RErr (PlainError "no images") else ROk [n])
    (exampleProject [fnA; fnB]) =
  (ROk (List.concat (map (lookupImages string
          (fun _ n => if String.eqb n "a" then RErr (PlainError "no images") else ROk [n])
          (Project_Name (exampleProject [fnA; fnB]))) (listedNames (exampleProject [fnA; fnB])))),
   omap (lookupError string
          (fun _ n => if String.eqb n "a" then RErr (PlainError "no images") else ROk [n])
          (Project_Name (exampleProject [fnA; fnB]))) (listedNames (exampleProject [fnA; fnB]))).
Proof.
  assert (Hp : forall n, n ∈ listedNames (exampleProject [fnA; fnB]) ->
     (fun (_ : string) n => if String.eqb n "a" then RErr (PlainError "no images") else ROk [n])
       (Project_Name (exampleProject [fnA; fnB])) n <> RPanic).
  { intros n _. simpl. destruct (String.eqb n "a"); discriminate. }
  split; [reflexivity | split; [exact Hp |]].
  apply List_collects_and_skips; [reflexivity | exact Hp].
Defined.

End BuildMore.

(* ===================================================================== *)
(** * More properties of the table output *)
(* ===================================================================== *)

Module OutputMoreFacts.
Import Output OutputMore.

Lemma list_ascii_of_string_app (a b : string) :
  list_ascii_of_string (a ++ b) = (list_ascii_of_string a ++ list_ascii_of_string b)%list.
Proof. induction a as [|c a IH]; simpl; [reflexivity | rewrite IH; reflexivity]. Qed.

Lemma firstFieldL_app (l o : list ascii) :
  forallb (fun c => negb (Ascii.eqb c ",")) l = true ->
  firstFieldL (l ++ ","%char :: o)%list = l.
Proof.
  induction l as [|c l IH]; intros H; [reflexivity |].
  simpl in H. apply andb_true_iff in H as [Hc Hl].
  simpl. destruct (Ascii.eqb c ","); [discriminate |]. rewrite IH by exact Hl. reflexivity.
Qed.

Lemma firstField_comma (n o : string) :
  commaFree n = true -> firstField (n ++ "," ++ o) = n.
Proof.
  intros H. unfold firstField. rewrite list_ascii_of_string_app. simpl.
  rewrite firstFieldL_app by exact H. apply string_of_list_ascii_of_string.
Qed.

Lemma comma_string_nonempty (n o : string) : String.eqb (n ++ "," ++ o) "" = false.
Proof. destruct n; reflexivity. Qed.

Lemma firstFieldL_plain (l : list ascii) :
  forallb (fun c => negb (Ascii.eqb c ",")) l = true -> firstFieldL l = l.
Proof.
  induction l as [|c l IH]; intros H; [reflexivity |].
  simpl in H. apply andb_true_iff in H as [Hc Hl].
  simpl. destruct (Ascii.eqb c ","); [discriminate |]. rewrite IH by exact Hl. reflexivity.
Qed.

Lemma firstField_plain (n : string) : commaFree n = true -> firstField n = n.
Proof.
  intros H. unfold firstField. rewrite firstFieldL_plain by exact H.
  apply string_of_list_ascii_of_string.
Qed.

(** A tag value names the column by its part before the first comma: both
    [name] and [name,options] give [name] (the options such as [omitempty]
    are dropped).  A non-empty yaml tag wins over the json tag, whatever
    the json tag says, even when its name part is empty: with
    [yaml:",omitempty"] the field gets no column.  The json tag is read
    only when there is no yaml tag, and a field with neither tag gets no
    name. *)
Theorem nameFromField_tag_name (n o j : string) :
  commaFree n = true ->
  nameFromField {| Tag_yaml := n ++ "," ++ o; Tag_json := j |} = n /\
  nameFromField {| Tag_yaml := ""; Tag_json := n ++ "," ++ o |} = n /\
  (n <> "" ->
     nameFromField {| Tag_yaml := n; Tag_json := j |} = n /\
     nameFromField {| Tag_yaml := ""; Tag_json := n |} = n) /\
  nameFromField {| Tag_yaml := ""; Tag_json := "" |} = "".
Proof.
  intros H. unfold nameFromField. cbn [Tag_yaml Tag_json].
  rewrite comma_string_nonempty. simpl. rewrite firstField_comma by exact H.
  split; [reflexivity | split; [reflexivity | split; [| reflexivity]]].
  intros Hn. apply String.eqb_neq in Hn. rewrite Hn. simpl.
  rewrite firstField_plain by exact H. split; reflexivity.
Qed.

Lemma nameFromField_tag_name_witness :
  commaFree "name" = true /\
  (nameFromField {| Tag_yaml := "name" ++ "," ++ "omitempty"; Tag_json := "other" |} = "name" /\
   nameFromField {| Tag_yaml := ""; Tag_json := "name" ++ "," ++ "omitempty" |} = "name" /\
   ("name" <> "" ->
      nameFromField {| Tag_yaml := "name"; Tag_json := "other" |} = "name" /\
      nameFromField {| Tag_yaml := ""; Tag_json := "name" |} = "name") /\
   nameFromField {| Tag_yaml := ""; Tag_json := "" |} = "").
Proof.
  split; [reflexivity |].
  apply (nameFromField_tag_name "name" "omitempty" "other"). reflexivity.
Defined.

Lemma listStructRow_acc (n : nat) (vs acc : list Value) :
  List.length acc <= n ->
  foldl (fun row fv => if decide (List.length row < n) then (row ++ [listCell fv])%list else row)
        acc vs = (acc ++ map listCell (take (n - List.length acc) vs))%list.
Proof.
  revert acc. induction vs as [|v vs IH]; intros acc Hle; cbn [foldl].
  { rewrite take_nil. simpl. rewrite app_nil_r. reflexivity. }
  destruct (decide (List.length acc < n)) as [Hlt|Hge].
  - rewrite IH by (rewrite length_app; simpl; lia).
    rewrite length_app. simpl.
    replace (n - List.length acc) with (S (n - (List.length acc + 1))) by lia.
    cbn [take map]. rewrite <- app_assoc. reflexivity.
  - assert (Heq : n - List.length acc = 0) by lia. rewrite IH by lia.
    rewrite Heq. reflexivity.
Qed.

Lemma listStructRow_eq (n : nat) (vs : list Value) :
  listStructRow n vs = map listCell (take n vs).
Proof.
  unfold listStructRow. rewrite listStructRow_acc by (simpl; lia).
  simpl. rewrite Nat.sub_0_r. reflexivity.
Qed.

(** printList's row for a struct element is exactly its first
    [length names] fields, in declaration order, one per column (all of
    them when the struct has fewer), whichever fields carry the names; a
    non-nil pointer field shows the value it points to, any other field
    shows itself.  So the cells sit under their own names only when the
    named fields come first; printStruct, in contrast, pairs each name with
    its own field. *)
Theorem printList_struct_row (names : list string) (vs : list Value) :
  listRow names (VStruct vs) = Some (map listCell (take (List.length names) vs)).
Proof. unfold listRow. rewrite listStructRow_eq. reflexivity. Qed.

Lemma namesFrom_struct_length (fs : list StructField) :
  List.length (namesFrom (TStruct fs)) <= List.length fs.
Proof.
  simpl. induction fs as [|f fs IH]; [simpl; lia |].
  cbn [map]. rewrite filter_cons. destruct (decide _); simpl; lia.
Qed.

(** For a slice of Go type [[]elem], printList prints one row per element
    when [elem] is a struct or a simple type (bool, int, string, pointer) and
    no row otherwise, and every row has exactly one cell per header name. *)
Theorem printList_rows_fit_header (elem : Ty) (elems : list Value) :
  Forall (fun v => valueHasTy elem v = true) elems ->
  List.length (snd (printList elem elems)) =
    (if rowTy elem then List.length elems else 0) /\
  Forall (fun row => List.length row = List.length (namesFrom elem)) (snd (printList elem elems)).
Proof.
  intros Hty. unfold printList. cbn [snd].
  induction elems as [|v elems IH]; [split; [destruct (rowTy elem); reflexivity | constructor] |].
  inversion Hty as [|? ? Hv Hrest]; subst. destruct (IH Hrest) as [Hlen Hall].
  rewrite OutputFacts.omap_cons_eq.
  destruct elem as [fs| | | | | | |]; destruct v; cbn [valueHasTy] in Hv; try discriminate;
    cbn [listRow rowTy] in *; cbn [List.length];
    try (split; [exact Hlen | exact Hall]).
  - rewrite listStructRow_eq.
    split; [rewrite Hlen; reflexivity |].
    constructor; [| exact Hall].
    apply Nat.eqb_eq in Hv. rewrite length_map, length_take.
    pose proof (namesFrom_struct_length fs). lia.
  - split; [rewrite Hlen; reflexivity | constructor; [reflexivity | exact Hall]].
  - split; [rewrite Hlen; reflexivity | constructor; [reflexivity | exact Hall]].
  - split; [rewrite Hlen; reflexivity | constructor; [reflexivity | exact Hall]].
  - split; [rewrite Hlen; reflexivity | constructor; [reflexivity | exact Hall]].
Qed.

Lemma printList_rows_fit_header_witness :
  Forall (fun v => valueHasTy (TStruct [{| Tag_yaml := "name"; Tag_json := "" |};
                                         {| Tag_yaml := ""; Tag_json := "" |}]) v = true)
         [VStruct [VString "x"; VInt 1]; VStruct [VString "y"; VInt 2]] /\
  (List.length (snd (printList (TStruct [{| Tag_yaml := "name"; Tag_json := "" |};
                                          {| Tag_yaml := ""; Tag_json := "" |}])
                               [VStruct [VString "x"; VInt 1]; VStruct [VString "y"; VInt 2]])) =
     (if rowTy (TStruct [{| Tag_yaml := "name"; Tag_json := "" |};
                          {| Tag_yaml := ""; Tag_json := "" |}])
      then List.length [VStruct [VString "x"; VInt 1]; VStruct [VString "y"; VInt 2]] else 0) /\
   Forall (fun row => List.length row =
                      List.length (namesFrom (TStruct [{| Tag_yaml := "name"; Tag_json := "" |};
                                                        {| Tag_yaml := ""; Tag_json := "" |}])))
          (snd (printList (TStruct [{| Tag_yaml := "name"; Tag_json := "" |};
                                     {| Tag_yaml := ""; Tag_json := "" |}])
                          [VStruct [VString "x"; VInt 1]; VStruct [VString "y"; VInt 2]]))).
Proof.
  assert (H : Forall (fun v => valueHasTy (TStruct [{| Tag_yaml := "name"; Tag_json := "" |};
                                                     {| Tag_yaml := ""; Tag_json := "" |}]) v = true)
                     [VStruct [VString "x"; VInt 1]; VStruct [VString "y"; VInt 2]])
    by (repeat constructor).
  split; [exact H |]. apply printList_rows_fit_header. exact H.
Defined.

(** For a map of Go type [map[K]elem], every row printMap emits has exactly
    as many cells as the header (the key column and one per name). *)
Theorem printMap_rows_fit_header (elem : Ty) (iter : list (Value * Value)) :
  Forall (fun e => valueHasTy elem (snd e) = true) iter ->
  Forall (fun row => List.length row = List.length (fst (printMap elem iter)))
         (snd (printMap elem iter)).
Proof.
  intros Hty. unfold printMap. cbn [fst snd]. rewrite length_cons, length_map.
  apply Forall_forall. intros row Hrow.
  apply list_elem_of_omap in Hrow as ([k v] & Hin & Hr).
  assert (Hin' : (k, v) ∈ iter).
  { rewrite <- (OutputFacts.sortStable_perm iter). exact Hin. }
  rewrite Forall_forall in Hty. specialize (Hty _ Hin'). cbn [snd] in Hty.
  destruct elem as [fs| | | | | | |]; destruct v; cbn [valueHasTy] in Hty; try discriminate;
    cbn [mapRow] in Hr; inversion Hr; subst; cbn [List.length namesFrom]; try reflexivity.
  apply Nat.eqb_eq in Hty. rewrite length_take.
  pose proof (namesFrom_struct_length fs). simpl in *. lia.
Qed.

Lemma printMap_rows_fit_header_witness :
  Forall (fun e => valueHasTy TSimple (snd e) = true)
         [(VString "b", VInt 2); (VString "a", VInt 1)] /\
  Forall (fun row => List.length row =
                     List.length (fst (printMap TSimple [(VString "b", VInt 2); (VString "a", VInt 1)])))
         (snd (printMap TSimple [(VString "b", VInt 2); (VString "a", VInt 1)])).
Proof.
  assert (H : Forall (fun e => valueHasTy TSimple (snd e) = true)
                     [(VString "b", VInt 2); (VString "a", VInt 1)]) by (repeat constructor).
  split; [exact H |]. apply printMap_rows_fit_header. exact H.
Defined.

(** For a struct, printStruct prints one row per header name printList
    would use, in the same order, labelled with the upper-cased name; each
    row has two cells, the label and the field's value. *)
Theorem printStruct_labels (ToUpper : string -> string) (fs : list StructField)
    (vs : list Value) :
  List.length vs = List.length fs ->
  map (fun row => head row) (printStruct ToUpper fs vs) =
    map (fun n => Some (VString (ToUpper n))) (namesFrom (TStruct fs)) /\
  Forall (fun row => List.length row = 2) (printStruct ToUpper fs vs).
Proof.
  unfold printStruct, namesFrom. revert vs.
  induction fs as [|f fs IH]; intros [|v vs] Hl; try discriminate; [split; constructor |].
  cbn in Hl. injection Hl as Hl. destruct (IH vs Hl) as [H1 H2].
  cbn [zip zip_with map]. rewrite OutputFacts.omap_cons_eq, filter_cons.
  destruct (String.eqb_spec (nameFromField f) "") as [He|Hne].
  - rewrite decide_False by (intros Hc; apply Hc; exact He). split; assumption.
  - rewrite decide_True by exact Hne. cbn [map]. split; [f_equal; exact H1 | constructor; auto].
Qed.

Lemma printStruct_labels_witness :
  List.length [VString "6e83"; VString "unused"; VString "latest"] =
    List.length [{| Tag_yaml := "id"; Tag_json := "" |}; {| Tag_yaml := ""; Tag_json := "" |};
                 {| Tag_yaml := ""; Tag_json := "tag" |}] /\
  (map (fun row => head row)
       (printStruct (fun s => s)
          [{| Tag_yaml := "id"; Tag_json := "" |}; {| Tag_yaml := ""; Tag_json := "" |};
           {| Tag_yaml := ""; Tag_json := "tag" |}]
          [VString "6e83"; VString "unused"; VString "latest"]) =
     map (fun n => Some (VString n))
         (namesFrom (TStruct [{| Tag_yaml := "id"; Tag_json := "" |};
                              {| Tag_yaml := ""; Tag_json := "" |};
                              {| Tag_yaml := ""; Tag_json := "tag" |}])) /\
   Forall (fun row => List.length row = 2)
          (printStruct (fun s => s)
             [{| Tag_yaml := "id"; Tag_json := "" |}; {| Tag_yaml := ""; Tag_json := "" |};
              {| Tag_yaml := ""; Tag_json := "tag" |}]
             [VString "6e83"; VString "unused"; VString "latest"])).
Proof.
  split; [reflexivity |].
  apply (printStruct_labels (fun s => s)). reflexivity.
Defined.

End OutputMoreFacts.

(* ===================================================================== *)
(** * Properties of the root command's setup *)
(* ===================================================================== *)

Module MainFacts.
Import Main.

Lemma splitSpaceL_word (w rest cur : list ascii) :
  forallb (fun c => negb (Ascii.eqb c " ")) w = true ->
  splitSpaceL (w ++ rest)%list cur = splitSpaceL rest (rev w ++ cur)%list.
Proof.
  revert cur. induction w as [|c w IH]; intros cur H; [reflexivity |].
  simpl in H. apply andb_true_iff in H as [Hc Hw].
  simpl. destruct (Ascii.eqb c " "); [discriminate |].
  rewrite IH by exact Hw. rewrite <- app_assoc. reflexivity.
Qed.

(** [strings.Split(strings.Join(ws, " "), " ") = ws] for words without
    spaces. *)
Lemma Split_space_concat (ws : list string) :
  ws <> [] -> Forall (fun w => spaceFree w = true) ws ->
  Split_space (String.concat " " ws) = ws.
Proof.
  unfold Split_space. intros Hne Hall. induction ws as [|w ws IH]; [congruence |].
  inversion Hall as [|? ? Hw Hrest]; subst. unfold spaceFree in Hw.
  destruct ws as [|w' ws'].
  - simpl. rewrite <- (app_nil_r (list_ascii_of_string w)).
    rewrite splitSpaceL_word by exact Hw. simpl. rewrite app_nil_r, rev_involutive.
    rewrite string_of_list_ascii_of_string. reflexivity.
  - change (String.concat " " (w :: w' :: ws')) with (w ++ " " ++ String.concat " " (w' :: ws')).
    rewrite OutputMoreFacts.list_ascii_of_string_app. rewrite splitSpaceL_word by exact Hw.
    simpl. rewrite app_nil_r, rev_involutive, string_of_list_ascii_of_string.
    f_equal. apply IH; [discriminate | exact Hrest].
Qed.

(** The alias [to] of a command path [from] (words separated by single
    spaces) runs the root command with [os.Args] set to the program name,
    the words of [from], then the alias's own arguments, unchanged and in
    order; e.g. [nitric up -t aws] runs as [nitric stack update -t aws]. *)
Theorem aliasArgs_forwards (a0 : string) (rest : list string) (ws args : list string) :
  ws <> [] -> Forall (fun w => spaceFree w = true) ws ->
  aliasArgs (a0 :: rest) (String.concat " " ws) args = Some (a0 :: ws ++ args)%list.
Proof.
  intros Hne Hall. unfold aliasArgs. rewrite Split_space_concat by assumption. reflexivity.
Qed.

Lemma aliasArgs_forwards_witness :
  ["stack"; "update"] <> [] /\
  Forall (fun w => spaceFree w = true) ["stack"; "update"] /\
  aliasArgs ["nitric"; "up"; "-t"; "aws"] (String.concat " " ["stack"; "update"]) ["-t"; "aws"] =
    Some ("nitric" :: ["stack"; "update"] ++ ["-t"; "aws"])%list.
Proof.
  assert (Hne : ["stack"; "update"] <> []) by discriminate.
  assert (Hw : Forall (fun w => spaceFree w = true) ["stack"; "update"]) by (repeat constructor).
  split; [exact Hne | split; [exact Hw |]].
  apply aliasArgs_forwards; assumption.
Defined.

(** [ensureConfigDefaults] leaves a set [build_timeout] alone and sets an
    unset one to five minutes, always runs both packages' default setters,
    and writes the config file (with the settings it ends with) exactly when
    something was added; when it does not write, it succeeds. *)
Theorem ensureConfigDefaults_spec (Cfg : Type) (EDC ERD : Cfg -> bool * Cfg)
    (W : Build.Res unit) (v : Viper Cfg) :
  let res := ensureConfigDefaults Cfg EDC ERD W v in
  build_timeout Cfg (snd (fst res)) =
    (if Z.eqb (build_timeout Cfg v) 0 then (5 * minute)%Z else build_timeout Cfg v) /\
  others Cfg (snd (fst res)) = snd (ERD (snd (EDC (others Cfg v)))) /\
  (snd res <> None <->
   build_timeout Cfg v = 0%Z \/ fst (EDC (others Cfg v)) = true \/
   fst (ERD (snd (EDC (others Cfg v)))) = true) /\
  (snd res = None \/ snd res = Some (snd (fst res))) /\
  (snd res = None -> fst (fst res) = Build.ROk tt).
Proof.
  cbv zeta. unfold ensureConfigDefaults.
  destruct (Z.eqb_spec (build_timeout Cfg v) 0) as [H0|H0]; cbn [build_timeout others];
  destruct (EDC (others Cfg v)) as [c1 o1] eqn:E1; destruct (ERD o1) as [c2 o2] eqn:E2;
  cbn [fst snd]; rewrite ?E2;
  destruct c1, c2; cbn; repeat split; try tauto; try congruence;
  try (intros [H|[H|H]]; congruence).
Qed.

End MainFacts.
